(** * Citation highlighting and incremental search results

    A shallow embedding of the two front-end pieces that carry the
    citation pipeline:

    - [pdf-highlighter.tsx]: [getNextId], [processHighlight],
      [processCitationsWithHighlights], [addHighlight], [updateHighlight];
    - [knowledge-search.tsx]: [lastResultElementRef], [handleSearch],
      [clearSearch].

    JavaScript numbers are IEEE-754 binary64 values, so coordinates and page
    numbers are primitive floats; [undefined]/[null] is [None]; [console] and
    [Math.random] are threaded explicitly through a [World]. *)

From Stdlib Require Import Floats ZArith List Bool String Ascii Lia Permutation.
Import ListNotations.

Set Implicit Arguments.
Set Warnings "-inexact-float".

Local Open Scope string_scope.
Local Open Scope list_scope.

(** ** JavaScript primitives used by the sources *)

Module JS.

(** [ToBoolean] on a number: [0], [-0] and [NaN] are falsy. *)
Definition is_nan (n : float) : bool := negb (PrimFloat.eqb n n).

Definition truthy_number (n : float) : bool :=
  negb (PrimFloat.eqb n 0%float || is_nan n).

(** [ToBoolean] on a string: only the empty string is falsy. *)
Definition truthy_string (s : string) : bool :=
  match s with
  | EmptyString => false
  | String _ _ => true
  end.

(** [a || b] where [a] may be [undefined]. *)
Definition or_number (a : option float) (b : float) : float :=
  match a with
  | Some n => if truthy_number n then n else b
  | None => b
  end.

Definition or_string (a : option string) (b : string) : string :=
  match a with
  | Some s => if truthy_string s then s else b
  | None => b
  end.

(** [s.slice(n)] for a non-negative [n]. *)
Fixpoint slice (n : nat) (s : string) : string :=
  match n, s with
  | O, _ => s
  | S _, EmptyString => EmptyString
  | S k, String _ rest => slice k rest
  end.

(** [{...a, ...b}] restricted to one optional property of [b]. *)
Definition spread {A : Type} (a : A) (b : option A) : A :=
  match b with
  | Some v => v
  | None => a
  end.

End JS.

(** ** Data model of [pdf-highlighter.tsx] *)

Module BoundingBox.
Record t := mk { x : float; y : float }.
End BoundingBox.

Module Metadata.
Record t := mk {
  bounding_box : option (list BoundingBox.t);
  pageNum : option float;
  _id : option string
}.
End Metadata.

Module DocumentContent.
Record t := mk {
  content : option string;
  metadata : option Metadata.t
}.
End DocumentContent.

Module Rect.
Record t := mk {
  x1 : float;
  y1 : float;
  x2 : float;
  y2 : float;
  width : float;
  height : float;
  pageNumber : float
}.
End Rect.

Module Position.
Record t := mk {
  boundingRect : Rect.t;
  rects : list Rect.t;
  pageNumber : float
}.

(** [Partial<Position>] *)
Record partial := mkPartial {
  p_boundingRect : option Rect.t;
  p_rects : option (list Rect.t);
  p_pageNumber : option float
}.

(** [{ ...pos, ...upd }] *)
Definition merge (pos : t) (upd : partial) : t :=
  {| boundingRect := JS.spread (boundingRect pos) (p_boundingRect upd);
     rects := JS.spread (rects pos) (p_rects upd);
     pageNumber := JS.spread (pageNumber pos) (p_pageNumber upd) |}.
End Position.

Module Content.
(** Both properties are optional in the source type, so [Partial<Content>]
    has the same shape. *)
Record t := mk {
  text : option string;
  image : option string
}.

(** [{ ...c, ...upd }]: a property present in [upd] wins. *)
Definition merge (c upd : t) : t :=
  {| text := match text upd with Some v => Some v | None => text c end;
     image := match image upd with Some v => Some v | None => image c end |}.
End Content.

Module Comment.
Record t := mk { text : string; emoji : string }.
Definition empty : t := {| text := EmptyString; emoji := EmptyString |}.
End Comment.

Module HighlightType.
Record t := mk {
  content : Content.t;
  position : Position.t;
  comment : Comment.t;
  id : string
}.
End HighlightType.

Module ProcessedCitation.
(** [{ ...citation, highlight }] *)
Record t := mk {
  citation : DocumentContent.t;
  highlight : option HighlightType.t
}.
End ProcessedCitation.

(** ** The ambient world: console and random source *)

Inductive Exn : Type :=
| TypeError (what : string).

Inductive Diagnostic : Type :=
| console_warn (msg : string) (boundingBox : option (list BoundingBox.t))
| console_error (msg : string) (error : Exn).

(** [Math_random k] is the decimal rendering [String(Math.random())] of the
    [k]-th draw; [draws] counts the draws made so far and [console] collects
    what was logged, oldest first. *)
Record World := mkWorld {
  Math_random : nat -> string;
  draws : nat;
  console : list Diagnostic
}.

Definition log (d : Diagnostic) (w : World) : World :=
  {| Math_random := Math_random w;
     draws := draws w;
     console := console w ++ [d] |}.

(** [const getNextId = () => String(Math.random()).slice(2)] *)
Definition getNextId (w : World) : string * World :=
  (JS.slice 2 (Math_random w (draws w)),
   {| Math_random := Math_random w;
      draws := S (draws w);
      console := console w |}).

(** ** [processHighlight] *)

Definition PAGE_WIDTH : float := 967%float.
Definition PAGE_HEIGHT : float := 747.2272727272727%float.

(** [boundingBox[i]] followed by a property read: reading a property of
    [undefined] throws. *)
Definition index (boundingBox : list BoundingBox.t) (i : nat)
  : Exn + BoundingBox.t :=
  match nth_error boundingBox i with
  | Some p => inr p
  | None => inl (TypeError "Cannot read properties of undefined")
  end.

(** [a || getNextId()]: the right operand is evaluated only when [a] is
    falsy. *)
Definition or_getNextId (a : option string) (w : World) : string * World :=
  match a with
  | Some s => if JS.truthy_string s then (s, w) else getNextId w
  | None => getNextId w
  end.

(** [citation.metadata._id || citation.metadata._id || getNextId()]; the
    unguarded [citation.metadata._id] throws when [metadata] is missing, and
    the repeated operand is falsy whenever the first one is. *)
Definition assign_id (citation : DocumentContent.t) (w : World)
  : (Exn + string) * World :=
  match DocumentContent.metadata citation with
  | None => (inl (TypeError "Cannot read properties of undefined"), w)
  | Some m =>
      let (i, w') := or_getNextId (Metadata._id m) w in (inr i, w')
  end.

(** [citation.metadata?.bounding_box] *)
Definition bounding_box_of (citation : DocumentContent.t)
  : option (list BoundingBox.t) :=
  match DocumentContent.metadata citation with
  | Some m => Metadata.bounding_box m
  | None => None
  end.

(** [citation.metadata?._id], the backend-assigned source id. *)
Definition sourceId_of (citation : DocumentContent.t) : option string :=
  match DocumentContent.metadata citation with
  | Some m => Metadata._id m
  | None => None
  end.

(** [citation.metadata?.pageNum] *)
Definition pageNum_of (citation : DocumentContent.t) : option float :=
  match DocumentContent.metadata citation with
  | Some m => Metadata.pageNum m
  | None => None
  end.

(** [!boundingBox || boundingBox.length !== 4] *)
Definition invalid_box (boundingBox : option (list BoundingBox.t)) : bool :=
  match boundingBox with
  | None => true
  | Some pts => negb (Nat.eqb (List.length pts) 4)
  end.

Definition mainRect (p0 p2 : BoundingBox.t) (citation : DocumentContent.t)
  : Rect.t :=
  {| Rect.x1 := (BoundingBox.x p0 * PAGE_WIDTH)%float;
     Rect.y1 := (BoundingBox.y p0 * PAGE_HEIGHT)%float;
     Rect.x2 := (BoundingBox.x p2 * PAGE_WIDTH)%float;
     Rect.y2 := (BoundingBox.y p2 * PAGE_HEIGHT)%float;
     Rect.width := PAGE_WIDTH;
     Rect.height := PAGE_HEIGHT;
     Rect.pageNumber := JS.or_number (pageNum_of citation) 1%float |}.

(** The body of the [try] block: [inl] is a thrown exception, [inr None] the
    early [return null]. *)
Definition processHighlight_try (citation : DocumentContent.t) (w : World)
  : (Exn + option HighlightType.t) * World :=
  let boundingBox := bounding_box_of citation in
  if invalid_box boundingBox then
    (inr None, log (console_warn "Invalid bounding box:" boundingBox) w)
  else
    let pts := match boundingBox with Some pts => pts | None => [] end in
    match index pts 0, index pts 2 with
    | inl e, _ => (inl e, w)
    | _, inl e => (inl e, w)
    | inr p0, inr p2 =>
        let rect := mainRect p0 p2 citation in
        match assign_id citation w with
        | (inl e, w') => (inl e, w')
        | (inr i, w') =>
            (inr (Some
               {| HighlightType.content :=
                    {| Content.text :=
                         Some (JS.or_string (DocumentContent.content citation) EmptyString);
                       Content.image := None |};
                  HighlightType.position :=
                    {| Position.boundingRect := rect;
                       Position.rects := [rect];
                       Position.pageNumber := Rect.pageNumber rect |};
                  HighlightType.comment := Comment.empty;
                  HighlightType.id := i |}),
             w')
        end
    end.

(** [try { ... } catch (error) { console.error(...); return null; }] *)
Definition processHighlight (citation : DocumentContent.t) (w : World)
  : option HighlightType.t * World :=
  match processHighlight_try citation w with
  | (inr r, w') => (r, w')
  | (inl error, w') =>
      (None, log (console_error "Error processing highlight:" error) w')
  end.

(** ** Component state of [PdfHighlighterComp] *)

Record Highlighter := mkHighlighter {
  highlights : list HighlightType.t;
  processedCitations : list ProcessedCitation.t
}.

(** [citations.map((citation) => ({ ...citation, highlight: processHighlight(citation) }))],
    evaluated left to right. *)
Fixpoint map_processHighlight (citations : list DocumentContent.t) (w : World)
  : list ProcessedCitation.t * World :=
  match citations with
  | [] => ([], w)
  | citation :: rest =>
      let (highlight, w1) := processHighlight citation w in
      let (tail, w2) := map_processHighlight rest w1 in
      ({| ProcessedCitation.citation := citation;
          ProcessedCitation.highlight := highlight |} :: tail, w2)
  end.

(** [.filter((citation) => citation.highlight)]: an object is truthy, [null]
    is not. *)
Definition has_highlight (c : ProcessedCitation.t) : bool :=
  match ProcessedCitation.highlight c with
  | Some _ => true
  | None => false
  end.

(** [processed.map((c) => c.highlight).filter(Boolean)] *)
Fixpoint collect_highlights (processed : list ProcessedCitation.t)
  : list HighlightType.t :=
  match processed with
  | [] => []
  | c :: rest =>
      match ProcessedCitation.highlight c with
      | Some h => h :: collect_highlights rest
      | None => collect_highlights rest
      end
  end.

(** The effect body run on [pdfUrl]/[citations] change.  [citations] is
    [None] when the prop is [undefined]. *)
Definition processCitationsWithHighlights
    (citations : option (list DocumentContent.t)) (w : World)
  : Highlighter * World :=
  match citations with
  | Some ((_ :: _) as cs) =>
      let (mapped, w') := map_processHighlight cs w in
      let processed := filter has_highlight mapped in
      ({| highlights := collect_highlights processed;
          processedCitations := processed |}, w')
  | _ => ({| highlights := []; processedCitations := [] |}, w)
  end.

(** [addHighlight]: the argument has every field but [id]; [comment] may be
    missing. *)
Definition addHighlight (content : Content.t) (position : Position.t)
    (comment : option Comment.t) (st : Highlighter) (w : World)
  : Highlighter * World :=
  let (fresh, w') := getNextId w in
  ({| highlights :=
        {| HighlightType.content := content;
           HighlightType.position := position;
           HighlightType.comment :=
             match comment with Some c => c | None => Comment.empty end;
           HighlightType.id := fresh |} :: highlights st;
      processedCitations := processedCitations st |}, w').

(** The function mapped over [prevHighlights] by [updateHighlight]. *)
Definition update_one (highlightId : string) (position : Position.partial)
    (content : Content.t) (h : HighlightType.t) : HighlightType.t :=
  if negb (String.eqb (HighlightType.id h) highlightId) then h
  else
    {| HighlightType.content := Content.merge (HighlightType.content h) content;
       HighlightType.position := Position.merge (HighlightType.position h) position;
       HighlightType.comment := HighlightType.comment h;
       HighlightType.id := HighlightType.id h |}.

Definition updateHighlight (highlightId : string) (position : Position.partial)
    (content : Content.t) (st : Highlighter) : Highlighter :=
  {| highlights := map (update_one highlightId position content) (highlights st);
     processedCitations := processedCitations st |}.

(** ** Generic list helper: in-place update of one array slot *)

Fixpoint update_at {A : Type} (i : nat) (f : A -> A) (l : list A) : list A :=
  match l, i with
  | [], _ => []
  | a :: rest, O => f a :: rest
  | a :: rest, S k => a :: update_at k f rest
  end.

(** ** [knowledge-search.tsx]: the search view

    The view talks to its parent only through the callback props, so the
    parent's state is a parameter [P].  A function prop is a JavaScript
    object: it has an identity, which React compares when deciding whether a
    [useCallback] dependency changed, and a behaviour. *)

Module KnowledgeSearch.

Definition Node := nat.

Section View.

Variable P : Type.

Record Callback (A : Type) := mkCallback {
  ref : nat;
  call : A -> P -> P
}.

Definition same_callback {A : Type} (a b : option (Callback A)) : bool :=
  match a, b with
  | None, None => true
  | Some f, Some g => Nat.eqb (ref f) (ref g)
  | _, _ => false
  end.

(** The props the search logic reads. *)
Record Props := mkProps {
  loading : bool;
  onTopKChange : option (Callback (Z -> Z));
  onSearchQueryChange : option (Callback string)
}.

(** An [IntersectionObserver] built by [lastResultElementRef]: its callback
    closes over [onTopKChange]; [targets] are the elements it observes. *)
Record IntersectionObserver := mkObserver {
  closure_onTopKChange : option (Callback (Z -> Z));
  targets : list Node
}.

(** [observers] holds every observer constructed so far (an observer that
    is no longer referenced keeps firing until it is disconnected);
    [observer_current] is [observer.current], an index into it; [attached] is
    the DOM element of the last result row, the one carrying the ref. *)
Record View := mkView {
  parent : P;
  props : Props;
  searchInputValue : string;
  searchQuery : string;
  hasSearched : bool;
  observers : list IntersectionObserver;
  observer_current : option nat;
  attached : option Node
}.

Definition with_parent (p : P) (v : View) : View :=
  {| parent := p; props := props v;
     searchInputValue := searchInputValue v; searchQuery := searchQuery v;
     hasSearched := hasSearched v; observers := observers v;
     observer_current := observer_current v; attached := attached v |}.

Definition with_observers (os : list IntersectionObserver)
    (current : option nat) (v : View) : View :=
  {| parent := parent v; props := props v;
     searchInputValue := searchInputValue v; searchQuery := searchQuery v;
     hasSearched := hasSearched v; observers := os;
     observer_current := current; attached := attached v |}.

(** [observer.disconnect()] *)
Definition disconnect (o : IntersectionObserver) : IntersectionObserver :=
  {| closure_onTopKChange := closure_onTopKChange o; targets := [] |}.

(** [observer.observe(node)]; observing an element twice has no effect. *)
Definition observe (node : Node) (o : IntersectionObserver)
  : IntersectionObserver :=
  {| closure_onTopKChange := closure_onTopKChange o;
     targets := if existsb (Nat.eqb node) (targets o) then targets o
                else targets o ++ [node] |}.

(** The callback produced by
    [useCallback((node) => {...}, [loading, onTopKChange])] in a render whose
    props were [pr], applied to [node]. *)
Definition lastResultElementRef (pr : Props) (node : option Node) (v : View)
  : View :=
  if loading pr then v
  else
    let os1 :=
      match observer_current v with
      | Some i => update_at i disconnect (observers v)
      | None => observers v
      end in
    let fresh := List.length os1 in
    let os2 :=
      os1 ++ [{| closure_onTopKChange := onTopKChange pr; targets := [] |}] in
    let os3 :=
      match node with
      | Some n => update_at fresh (observe n) os2
      | None => os2
      end in
    with_observers os3 (Some fresh) v.

(** The observer's callback:
    [if (entries[0].isIntersecting && onTopKChange) onTopKChange((prevTopK) => prevTopK + 10)] *)
Definition observer_callback (o : IntersectionObserver)
    (isIntersecting : bool) (p : P) : P :=
  if isIntersecting then
    match closure_onTopKChange o with
    | Some f => call f (fun prevTopK : Z => (prevTopK + 10)%Z) p
    | None => p
    end
  else p.

(** [handleSearch] *)
Definition handleSearch (v : View) : View :=
  {| parent :=
       match onSearchQueryChange (props v) with
       | Some f => call f (searchInputValue v) (parent v)
       | None => parent v
       end;
     props := props v;
     searchInputValue := searchInputValue v;
     searchQuery := searchInputValue v;
     hasSearched := true;
     observers := observers v;
     observer_current := observer_current v;
     attached := attached v |}.

(** [handleInputChange] *)
Definition handleInputChange (value : string) (v : View) : View :=
  {| parent := parent v; props := props v;
     searchInputValue := value; searchQuery := searchQuery v;
     hasSearched := hasSearched v; observers := observers v;
     observer_current := observer_current v; attached := attached v |}.

(** [clearSearch] *)
Definition clearSearch (v : View) : View :=
  {| parent :=
       match onSearchQueryChange (props v) with
       | Some f => call f EmptyString (parent v)
       | None => parent v
       end;
     props := props v;
     searchInputValue := EmptyString;
     searchQuery := EmptyString;
     hasSearched := hasSearched v;
     observers := observers v;
     observer_current := observer_current v;
     attached := attached v |}.

(** *** The environment: React's ref protocol and the browser

    [lastResultElementRef] is passed as the [ref] of the last result row.
    When a render produces a different ref callback for an element, or the
    element carrying it changes, React calls the previous callback with
    [null] and then the new callback with the element.  The callback's
    identity is fixed by the [useCallback] dependencies. *)

Definition same_ref_callback (old new : Props) : bool :=
  Bool.eqb (loading old) (loading new)
  && same_callback (onTopKChange old) (onTopKChange new).

Definition same_node (a b : option Node) : bool :=
  match a, b with
  | None, None => true
  | Some n, Some m => Nat.eqb n m
  | _, _ => false
  end.

Definition set_render (pr : Props) (node : option Node) (v : View) : View :=
  {| parent := parent v; props := pr;
     searchInputValue := searchInputValue v; searchQuery := searchQuery v;
     hasSearched := hasSearched v; observers := observers v;
     observer_current := observer_current v; attached := node |}.

Definition render (pr : Props) (node : option Node) (v : View) : View :=
  if same_ref_callback (props v) pr && same_node (attached v) node then
    set_render pr node v
  else
    let v1 :=
      match attached v with
      | Some _ => lastResultElementRef (props v) None v
      | None => v
      end in
    let v2 :=
      match node with
      | Some n => lastResultElementRef pr (Some n) v1
      | None => v1
      end in
    set_render pr node v2.

(** The browser reports an intersection change of element [n] to an
    observer only if it observes [n]. *)
Definition notify (n : Node) (isIntersecting : bool) (p : P)
    (o : IntersectionObserver) : P :=
  if existsb (Nat.eqb n) (targets o)
  then observer_callback o isIntersecting p
  else p.

(** The report reaches every observer constructed so far, oldest first. *)
Definition deliver (n : Node) (isIntersecting : bool) (v : View) : View :=
  with_parent (fold_left (notify n isIntersecting) (observers v) (parent v)) v.

(** What can happen to a mounted view: the parent re-renders it, the browser
    reports an intersection change, or the user types, searches or clears. *)
Inductive event : Type :=
| Render (pr : Props) (node : option Node)
| Intersect (n : Node) (isIntersecting : bool)
| Input (value : string)
| Search
| Clear.

Definition step (e : event) (v : View) : View :=
  match e with
  | Render pr node => render pr node v
  | Intersect n b => deliver n b v
  | Input value => handleInputChange value v
  | Search => handleSearch v
  | Clear => clearSearch v
  end.

(** First render: no observer yet, the ref callback is attached to the last
    row if there is one. *)
Definition mount (p : P) (pr : Props) (node : option Node) : View :=
  let v0 :=
    {| parent := p; props := pr; searchInputValue := EmptyString; searchQuery := EmptyString;
       hasSearched := false; observers := []; observer_current := None;
       attached := None |} in
  set_render pr node
    (match node with
     | Some n => lastResultElementRef pr (Some n) v0
     | None => v0
     end).

Definition run (evs : list event) (v : View) : View :=
  fold_left (fun s e => step e s) evs v.

End View.

Arguments Intersect {P} n isIntersecting.
Arguments Input {P} value.
Arguments Search {P}.
Arguments Clear {P}.

End KnowledgeSearch.

(** ** The incremental result aggregator behind the search view *)

Module Aggregator.

Section Aggregator.

Variable Item : Type.
Variable initialCursor : Z.

(** Modelled from the spec: the states of section 4.2; the parent view that
    owns the result list and performs the fetch is not among the sources. *)
Inductive State : Type := Idle | Loading | Populated | Exhausted.

(** Modelled from the spec: a fetch handed to the retrieval backend
    ([search(query, cursor)] of section 6), tagged with the generation token
    of section 5; the code issuing fetches is not among the sources. *)
Record FetchRequest := mkFetch {
  token : nat;
  query : string;
  cursor : Z
}.

(** Modelled from the spec: [AggregatedResultSet] of section 3 together with
    the generation token of section 5, the fetches issued so far and the
    error surfaced to the consumer; the parent view holding this state is not
    among the sources. *)
Record AggregatedResultSet := mkSet {
  items : list Item;
  fetchCursor : Z;
  isLoading : bool;
  hasSearched : bool;
  generation : nat;
  currentQuery : string;
  issued : list FetchRequest;
  lastError : option string
}.

(** Modelled from the spec: the view is created empty (section 3,
    lifecycle); the missing part is the parent view's initial state. *)
Definition empty : AggregatedResultSet :=
  {| items := []; fetchCursor := initialCursor; isLoading := false;
     hasSearched := false; generation := 0; currentQuery := EmptyString;
     issued := []; lastError := None |}.

(** Modelled from the spec: which of the four states of section 4.2 the
    aggregator is in, derived from the fetch lifecycle flags; the missing
    part is the parent view. *)
Definition state_of (a : AggregatedResultSet) : State :=
  if isLoading a then Loading
  else match items a with
       | _ :: _ => Populated
       | [] => if hasSearched a then Exhausted else Idle
       end.

(** Modelled from the spec: [submitQuery(q)] from any state resets
    [fetchCursor], clears [items], records [hasSearched], starts a new
    generation and issues its fetch; the parent's query handler is not among
    the sources. *)
Definition submitQuery (q : string) (a : AggregatedResultSet)
  : AggregatedResultSet :=
  let g := S (generation a) in
  {| items := []; fetchCursor := initialCursor; isLoading := true;
     hasSearched := true; generation := g; currentQuery := q;
     issued := issued a
               ++ [{| token := g; query := q; cursor := initialCursor |}];
     lastError := None |}.

(** Modelled from the spec: [Populated --scrolledToSentinel--> Loading]
    advances [fetchCursor] with the updater it is handed, keeps [items], and
    is a no-op in every other state; the parent's [onTopKChange] handler is
    not among the sources. *)
Definition scrolledToSentinel (advance : Z -> Z) (a : AggregatedResultSet)
  : AggregatedResultSet :=
  match state_of a with
  | Populated =>
      let c := advance (fetchCursor a) in
      {| items := items a; fetchCursor := c; isLoading := true;
         hasSearched := hasSearched a; generation := generation a;
         currentQuery := currentQuery a;
         issued := issued a
                   ++ [{| token := generation a; query := currentQuery a;
                          cursor := c |}];
         lastError := lastError a |}
  | _ => a
  end.

(** Modelled from the spec: a response is applied only when its token is the
    current generation; a fresh query finds [items] cleared, a pagination
    fetch appends; the parent's response handler is not among the
    sources. *)
Definition fetchSucceeds (tok : nat) (page : list Item)
    (a : AggregatedResultSet) : AggregatedResultSet :=
  if Nat.eqb tok (generation a) then
    {| items := items a ++ page; fetchCursor := fetchCursor a;
       isLoading := false; hasSearched := hasSearched a;
       generation := generation a; currentQuery := currentQuery a;
       issued := issued a; lastError := None |}
  else a.

(** Modelled from the spec: a failed fetch leaves [items] untouched, ends the
    load and surfaces a distinguishable error (section 4.2, error handling);
    the parent's error handler is not among the sources. *)
Definition fetchFails (tok : nat) (err : string) (a : AggregatedResultSet)
  : AggregatedResultSet :=
  if Nat.eqb tok (generation a) then
    {| items := items a; fetchCursor := fetchCursor a;
       isLoading := false; hasSearched := hasSearched a;
       generation := generation a; currentQuery := currentQuery a;
       issued := issued a; lastError := Some err |}
  else a.

(** Modelled from the spec: the two callback props the parent hands to the
    search view, bound to the transitions above; the parent's render is not
    among the sources. *)
Definition onSearchQueryChange_prop
  : KnowledgeSearch.Callback AggregatedResultSet string :=
  {| KnowledgeSearch.ref := 0; KnowledgeSearch.call := submitQuery |}.

(** Modelled from the spec: see [onSearchQueryChange_prop]. *)
Definition onTopKChange_prop
  : KnowledgeSearch.Callback AggregatedResultSet (Z -> Z) :=
  {| KnowledgeSearch.ref := 1; KnowledgeSearch.call := scrolledToSentinel |}.

(** Modelled from the spec: the props the parent renders the search view
    with, [loading] being the aggregator's own flag. *)
Definition props_of (a : AggregatedResultSet)
  : KnowledgeSearch.Props AggregatedResultSet :=
  {| KnowledgeSearch.loading := isLoading a;
     KnowledgeSearch.onTopKChange := Some onTopKChange_prop;
     KnowledgeSearch.onSearchQueryChange := Some onSearchQueryChange_prop |}.

End Aggregator.

End Aggregator.

(** ** Vocabulary for the statements about the search view *)

Section SearchViewVocabulary.

Import KnowledgeSearch.

Variable P : Type.

(** The parent's fetch cursor ([topK]). *)
Variable cursor : P -> Z.

(** The handler behaves like a state setter on the cursor: it applies the
    updater it is handed. *)
Definition applies_updater (f : Callback P (Z -> Z)) : Prop :=
  forall (u : Z -> Z) (p : P), cursor (call f u p) = u (cursor p).

Definition handler_ok (f : option (Callback P (Z -> Z))) : Prop :=
  match f with
  | Some g => applies_updater g
  | None => True
  end.


(** No observer observes anything. *)
Definition quiet (v : View P) : Prop :=
  forall j o, nth_error (observers v) j = Some o -> targets o = [].

(** Only [observer.current] observes, and only element [n]. *)
Definition armed_on (n : Node) (v : View P) : Prop :=
  forall j o, nth_error (observers v) j = Some o ->
              targets o = [] \/ (observer_current v = Some j /\ targets o = [n]).

(** The observer is armed only outside a load, and then on the last row. *)
Definition armed_only_when_idle (v : View P) : Prop :=
  if loading (props v) then quiet v
  else match attached v with
       | Some n => armed_on n v
       | None => quiet v
       end.




End SearchViewVocabulary.

(** ** Vocabulary for the statements about the mapper *)

(** A citation is accepted when its box passes the length check. *)
Definition valid (c : DocumentContent.t) : bool :=
  negb (invalid_box (bounding_box_of c)).

(** The diagnostic emitted for a rejected citation. *)
Definition rejection (c : DocumentContent.t) : Diagnostic :=
  console_warn "Invalid bounding box:" (bounding_box_of c).

(** The highlight built for an accepted citation, given its corners 0 and 2
    and the id chosen for it. *)
Definition built (c : DocumentContent.t) (p0 p2 : BoundingBox.t) (i : string)
  : HighlightType.t :=
  {| HighlightType.content :=
       {| Content.text :=
            Some (JS.or_string (DocumentContent.content c) EmptyString);
          Content.image := None |};
     HighlightType.position :=
       {| Position.boundingRect := mainRect p0 p2 c;
          Position.rects := [mainRect p0 p2 c];
          Position.pageNumber := Rect.pageNumber (mainRect p0 p2 c) |};
     HighlightType.comment := Comment.empty;
     HighlightType.id := i |}.

(** The citation carries a usable (present, non-empty) source id. *)
Definition has_source_id (c : DocumentContent.t) : bool :=
  match sourceId_of c with
  | Some s => JS.truthy_string s
  | None => false
  end.

(** The source ids of the accepted citations that carry one, in order. *)
Fixpoint source_ids (cs : list DocumentContent.t) : list string :=
  match cs with
  | [] => []
  | c :: rest =>
      match sourceId_of c with
      | Some s =>
          if valid c && JS.truthy_string s then s :: source_ids rest
          else source_ids rest
      | None => source_ids rest
      end
  end.

(** How many accepted citations need a generated id. *)
Definition needs_fresh_id (cs : list DocumentContent.t) : nat :=
  List.length (filter (fun c => valid c && negb (has_source_id c)) cs).

(** The next [k] ids [getNextId] hands out from world [w]. *)
Definition fresh_ids (w : World) (k : nat) : list string :=
  map (fun j => JS.slice 2 (Math_random w (draws w + j))) (seq 0 k).


(** ** Sample inputs *)

Definition pt (x y : float) : BoundingBox.t :=
  {| BoundingBox.x := x; BoundingBox.y := y |}.

(** The whole page: corner 0 is the origin, corner 2 is [(1, 1)]. *)
Definition unit_box : list BoundingBox.t :=
  [pt 0 0; pt 1 0; pt 1 1; pt 0 1].

Definition citation_of (box : option (list BoundingBox.t))
    (page : option float) (sid : option string) (text : string)
  : DocumentContent.t :=
  {| DocumentContent.content := Some text;
     DocumentContent.metadata :=
       Some {| Metadata.bounding_box := box;
               Metadata.pageNum := page;
               Metadata._id := sid |} |}.

Definition sample_world : World :=
  {| Math_random := fun k =>
       match k with
       | 0 => "0.8437592"
       | 1 => "0.1122334"
       | _ => "0.5"
       end;
     draws := 0;
     console := [] |}.

Definition two_point_box : list BoundingBox.t := [pt 0 0; pt 1 1].

(** Five citations, the third with a 2-element box. *)
Definition batch_of_five : list DocumentContent.t :=
  [citation_of (Some unit_box) (Some 1%float) (Some "c1") "one";
   citation_of (Some unit_box) (Some 1%float) None "two";
   citation_of (Some two_point_box) (Some 2%float) (Some "c3") "three";
   citation_of (Some unit_box) (Some 2%float) (Some "c4") "four";
   citation_of (Some unit_box) None (Some "c5") "five"].

(** Three citations with distinct ids: two from the backend, one drawn. *)
Definition batch_with_distinct_ids : list DocumentContent.t :=
  [citation_of (Some unit_box) None (Some "c1") "one";
   citation_of (Some unit_box) None None "two";
   citation_of (Some unit_box) None (Some "c3") "three"].

(** Two citations carrying the same source id. *)
Definition batch_with_shared_id : list DocumentContent.t :=
  [citation_of (Some unit_box) (Some 1%float) (Some "dup") "first";
   citation_of (Some unit_box) (Some 2%float) (Some "dup") "second"].

Definition highlight_of (i : string) (text : string) : HighlightType.t :=
  built (citation_of (Some unit_box) (Some 1%float) (Some i) text)
        (pt 0 0) (pt 1 1) i.

Definition no_position_change : Position.partial :=
  {| Position.p_boundingRect := None;
     Position.p_rects := None;
     Position.p_pageNumber := None |}.

Definition screenshot_only : Content.t :=
  {| Content.text := None; Content.image := Some "data:image/png;base64,AAAA" |}.

(** ** Sample search views *)

(** A parent that only holds [topK] and hands its state setter down. *)
Definition setTopK : KnowledgeSearch.Callback Z (Z -> Z) :=
  {| KnowledgeSearch.ref := 0; KnowledgeSearch.call := fun u topK => u topK |}.

Definition search_props (loading : bool) : KnowledgeSearch.Props Z :=
  {| KnowledgeSearch.loading := loading;
     KnowledgeSearch.onTopKChange := Some setTopK;
     KnowledgeSearch.onSearchQueryChange := None |}.

(** Mounted with results and [topK = 10]; the sentinel (element 7) comes into
    view, then the parent re-renders with [loading] set. *)
Definition load_more_started : list (KnowledgeSearch.event Z) :=
  [KnowledgeSearch.Input "foo";
   KnowledgeSearch.Intersect 7 true;
   KnowledgeSearch.Render (search_props true) (Some 7)].

(** A populated aggregator holding ten results of a query, and the next
    page of ten. *)
Definition ten_results : list nat := [1; 2; 3; 4; 5; 6; 7; 8; 9; 10]%nat.

Definition next_ten_results : list nat :=
  [11; 12; 13; 14; 15; 16; 17; 18; 19; 20]%nat.

Definition populated_with_ten : Aggregator.AggregatedResultSet nat :=
  {| Aggregator.items := ten_results;
     Aggregator.fetchCursor := 10%Z;
     Aggregator.isLoading := false;
     Aggregator.hasSearched := true;
     Aggregator.generation := 1;
     Aggregator.currentQuery := "foo";
     Aggregator.issued :=
       [{| Aggregator.token := 1; Aggregator.query := "foo";
           Aggregator.cursor := 10%Z |}];
     Aggregator.lastError := None |}.

(** The observer the search view builds when rendered by that parent. *)
Definition sentinel_observer
  : KnowledgeSearch.IntersectionObserver (Aggregator.AggregatedResultSet nat) :=
  {| KnowledgeSearch.closure_onTopKChange :=
       Some (Aggregator.onTopKChange_prop nat);
     KnowledgeSearch.targets := [7] |}.

(** The search view freshly mounted by an empty aggregator. *)
Definition fresh_search_view
  : KnowledgeSearch.View (Aggregator.AggregatedResultSet nat) :=
  KnowledgeSearch.mount (Aggregator.empty nat 10%Z)
    (Aggregator.props_of 10%Z (Aggregator.empty nat 10%Z)) None.

(** ** More of [pdf-highlighter.tsx]: rendering decisions *)

(** [HighlightPopup]: [comment?.text ? <div>{emoji} {text}</div> : null]; the
    result is the pair shown in the popup. *)
Definition HighlightPopup (comment : option Comment.t)
  : option (string * string) :=
  match comment with
  | Some c =>
      if JS.truthy_string (Comment.text c)
      then Some (Comment.emoji c, Comment.text c)
      else None
  | None => None
  end.

(** [const isTextHighlight = !highlight.content?.image] in
    [highlightTransform]. *)
Definition isTextHighlight (highlight : HighlightType.t) : bool :=
  match Content.image (HighlightType.content highlight) with
  | Some i => negb (JS.truthy_string i)
  | None => true
  end.

(** The [onChange] handler given to [AreaHighlight]:
    [updateHighlight(highlight.id, { boundingRect: viewportToScaled(boundingRect) },
    { image: screenshot(boundingRect) })]; [scaled] and [shot] are what the
    two library functions returned. *)
Definition onAreaHighlightChange (highlight : HighlightType.t)
    (scaled : Rect.t) (shot : string) (st : Highlighter) : Highlighter :=
  updateHighlight (HighlightType.id highlight)
    {| Position.p_boundingRect := Some scaled;
       Position.p_rects := None;
       Position.p_pageNumber := None |}
    {| Content.text := None; Content.image := Some shot |}
    st.

(** An area highlight as the viewer holds it after a selection. *)
Definition area_highlight (i : string) (r : Rect.t) (shot : string)
  : HighlightType.t :=
  {| HighlightType.content := {| Content.text := None; Content.image := Some shot |};
     HighlightType.position :=
       {| Position.boundingRect := r; Position.rects := [r];
          Position.pageNumber := Rect.pageNumber r |};
     HighlightType.comment := Comment.empty;
     HighlightType.id := i |}.

Definition sample_rect (x2 : float) : Rect.t :=
  {| Rect.x1 := 0%float; Rect.y1 := 0%float; Rect.x2 := x2; Rect.y2 := 50%float;
     Rect.width := PAGE_WIDTH; Rect.height := PAGE_HEIGHT;
     Rect.pageNumber := 1%float |}.

(** Two highlights from the backend and nothing else. *)
Definition held_two : Highlighter :=
  {| highlights := [highlight_of "a" "first"; highlight_of "b" "second"];
     processedCitations := [] |}.

(** Viewer state with one area highlight drawn by the user in front of the
    two backend highlights. *)
Definition held_with_area : Highlighter :=
  {| highlights := area_highlight "777" (sample_rect 100) "data:image/png;base64,AAAA"
                   :: highlights held_two;
     processedCitations := [] |}.


(** ** More of [knowledge-search.tsx]: helpers and render decisions *)

(** [String.prototype.toLowerCase] on the Latin letters [A]-[Z]; the strings
    compared below (file extensions, connector names) are ASCII words. *)
Definition lower_char (c : ascii) : ascii :=
  let n := nat_of_ascii c in
  if (65 <=? n)%nat && (n <=? 90)%nat then ascii_of_nat (n + 32) else c.

Fixpoint toLowerCase (s : string) : string :=
  match s with
  | EmptyString => EmptyString
  | String c rest => String (lower_char c) (toLowerCase rest)
  end.

(** [Array.prototype.includes] on strings. *)
Definition includes (l : list string) (x : string) : bool :=
  existsb (String.eqb x) l.

(** A [switch] over string labels: the first clause one of whose [case]
    labels equals the scrutinee returns, otherwise the [default]. *)
Fixpoint switch {A : Type} (x : string) (clauses : list (list string * A))
    (default : A) : A :=
  match clauses with
  | [] => default
  | (labels, result) :: rest =>
      if includes labels x then result else switch x rest default
  end.

Definition file_icons : list (list string * string) :=
  [(["pdf"], "mdi:file-pdf-box");
   (["doc"; "docx"], "mdi:file-word-box");
   (["xls"; "xlsx"], "mdi:file-excel-box");
   (["ppt"; "pptx"], "mdi:file-powerpoint-box");
   (["jpg"; "jpeg"; "png"; "gif"], "mdi:file-image-box");
   (["zip"; "rar"; "7z"], "mdi:file-archive-box");
   (["txt"], "mdi:file-text-box");
   (["html"; "css"; "js"], "mdi:file-code-box");
   (["mail"; "email"], "mdi:email")].

(** [getFileIcon]: [const ext = extension?.toLowerCase() || ''], then the
    switch. *)
Definition getFileIcon (extension : option string) : string :=
  let ext := JS.or_string (option_map toLowerCase extension) EmptyString in
  switch ext file_icons "mdi:file-document-box".

Definition file_icon_colors : list (list string * string) :=
  [(["pdf"], "#f44336");
   (["doc"; "docx"], "#2196f3");
   (["xls"; "xlsx"], "#4caf50");
   (["ppt"; "pptx"], "#ff9800");
   (["mail"; "email"], "#9C27B0")].

(** [getFileIconColor] *)
Definition getFileIconColor (extension : option string) : string :=
  let ext := JS.or_string (option_map toLowerCase extension) EmptyString in
  switch ext file_icon_colors "#1976d2".

(** [getContentPreview(content, maxLength = 220)]; lengths count the string's
    code units. *)
Definition getContentPreview (content : option string) (maxLength : nat)
  : string :=
  match content with
  | None => EmptyString
  | Some c =>
      if negb (JS.truthy_string c) then EmptyString
      else if (maxLength <? String.length c)%nat
           then String.append (String.substring 0 maxLength c) "..."
           else c
  end.

Module SearchMetadata.
(** The fields of a search result's [metadata] that the view's logic reads. *)
Record t := mk {
  recordId : option string;
  extension : option string;
  recordType : option string;
  connector : option string;
  topics : option (list string);
  departments : option (list string)
}.
End SearchMetadata.

Module SearchResult.
Record t := mk {
  content : option string;
  metadata : option SearchMetadata.t
}.
End SearchResult.

(** [a === 'LITERAL'] where [a] may be [undefined]. *)
Definition is_string (a : option string) (literal : string) : bool :=
  match a with
  | Some s => String.eqb s literal
  | None => false
  end.

Definition source_icons : list (list string * (string * string)) :=
  [(["DRIVE"], ("mdi:google-drive", "#4285F4"));
   (["SLACK"], ("mdi:slack", "#4A154B"));
   (["JIRA"], ("mdi:jira", "#0052CC"));
   (["TEAMS"], ("mdi:microsoft-teams", "#6264A7"));
   (["ONEDRIVE"], ("mdi:microsoft-onedrive", "#0078D4"))].

(** [getSourceIcon(result, theme)], returning [(icon, color)];
    [text_secondary] is [theme.palette.text.secondary]. *)
Definition getSourceIcon (result : SearchResult.t) (text_secondary : string)
  : string * string :=
  match SearchResult.metadata result with
  | None => ("mdi:database", text_secondary)
  | Some m =>
      if is_string (SearchMetadata.recordType m) "MAIL"
         || is_string (SearchMetadata.connector m) "GMAIL"
      then ("mdi:gmail", "#EA4335")
      else
        match SearchMetadata.connector m with
        | Some c => switch c source_icons ("mdi:database", text_secondary)
        | None => ("mdi:database", text_secondary)
        end
  end.

(** [record.metadata?.extension || ''] and [record.metadata?.recordId || '']. *)
Definition extension_of (record : SearchResult.t) : string :=
  JS.or_string
    (match SearchResult.metadata record with
     | Some m => SearchMetadata.extension m
     | None => None
     end) EmptyString.

Definition recordId_of (record : SearchResult.t) : string :=
  JS.or_string
    (match SearchResult.metadata record with
     | Some m => SearchMetadata.recordId m
     | None => None
     end) EmptyString.

(** The arguments [handleViewCitations] computes for [onViewCitations], when
    it reaches the call: [(recordId, isPdf, isExcel)]. *)
Definition viewCitations_call (record : SearchResult.t)
  : option (string * bool * bool) :=
  let recordId := recordId_of record in
  let extension := extension_of record in
  let isPdf := String.eqb (toLowerCase extension) "pdf" in
  let isExcel := includes ["xlsx"; "xls"; "csv"] (toLowerCase extension) in
  if isPdf || isExcel then Some (recordId, isPdf, isExcel) else None.

(** [handleViewCitations(record, event)]: the call is made only when the
    optional [onViewCitations] prop is present. *)
Definition handleViewCitations {P : Type}
    (onViewCitations : option (string -> bool -> bool -> P -> P))
    (record : SearchResult.t) (p : P) : P :=
  match viewCitations_call record with
  | Some (recordId, isPdf, isExcel) =>
      match onViewCitations with
      | Some f => f recordId isPdf isExcel p
      | None => p
      end
  | None => p
  end.

(** [isViewable] of a rendered row (whose [metadata] is present):
    [extension === 'pdf' || ['xlsx', 'xls', 'csv'].includes(extension?.toLowerCase() || '')]. *)
Definition isViewable (m : SearchMetadata.t) : bool :=
  is_string (SearchMetadata.extension m) "pdf"
  || includes ["xlsx"; "xls"; "csv"]
       (JS.or_string (option_map toLowerCase (SearchMetadata.extension m))
                     EmptyString).

(** [x?.length || 0] *)
Definition length_or_0 (l : option (list string)) : Z :=
  match l with
  | Some xs => Z.of_nat (List.length xs)
  | None => 0%Z
  end.

(** The chips of a row: [topics.slice(0, 3)], [departments.slice(0, 2)]. *)
Definition shown_chips (m : SearchMetadata.t) : list string :=
  match SearchMetadata.topics m with
  | Some ts => firstn 3 ts
  | None => []
  end
  ++ match SearchMetadata.departments m with
     | Some ds => firstn 2 ds
     | None => []
     end.

(** The condition under which the ["+N more"] chip is rendered. *)
Definition more_chip_shown (m : SearchMetadata.t) : bool :=
  (3 <? length_or_0 (SearchMetadata.topics m))%Z
  || (2 <? length_or_0 (SearchMetadata.departments m))%Z.

(** The number [N] of the ["+N more"] chip. *)
Definition more_chip_count (m : SearchMetadata.t) : Z :=
  (length_or_0 (SearchMetadata.topics m) - 3
   + (length_or_0 (SearchMetadata.departments m) - 2))%Z.

(** [getRecordTypeCount(type)] over the [searchResults] prop. *)
Definition getRecordTypeCount (searchResults : list SearchResult.t)
    (type : string) : nat :=
  List.length
    (filter (fun r =>
               match SearchResult.metadata r with
               | Some m => is_string (SearchMetadata.recordType m) type
               | None => false
               end)
            searchResults).

(** The four display switches, from [hasSearched], [searchResults.length]
    and [loading]. *)
Definition showInitialState (hasSearched : bool) (results : nat)
    (loading : bool) : bool :=
  negb hasSearched && Nat.eqb results 0.

Definition showNoResultsState (hasSearched : bool) (results : nat)
    (loading : bool) : bool :=
  hasSearched && Nat.eqb results 0 && negb loading.

Definition showResultsState (hasSearched : bool) (results : nat)
    (loading : bool) : bool :=
  (0 <? results)%nat.

Definition showLoadingState (hasSearched : bool) (results : nat)
    (loading : bool) : bool :=
  loading && negb (showResultsState hasSearched results loading).

(** Sample search results. *)
Definition search_result (extension recordType connector : option string)
    (topics departments : option (list string)) : SearchResult.t :=
  {| SearchResult.content := Some "text";
     SearchResult.metadata :=
       Some {| SearchMetadata.recordId := Some "rec-1";
               SearchMetadata.extension := extension;
               SearchMetadata.recordType := recordType;
               SearchMetadata.connector := connector;
               SearchMetadata.topics := topics;
               SearchMetadata.departments := departments |} |}.

(** Metadata of a row with the given topics and departments. *)
Definition mkSearchMetadata_sample (topics departments : list string)
  : SearchMetadata.t :=
  {| SearchMetadata.recordId := Some "rec-1";
     SearchMetadata.extension := Some "pdf";
     SearchMetadata.recordType := Some "FILE";
     SearchMetadata.connector := Some "DRIVE";
     SearchMetadata.topics := Some topics;
     SearchMetadata.departments := Some departments |}.

(** ** More of the search view: the input-synchronising effect *)

Section SearchViewEffects.

Import KnowledgeSearch.

Variable P : Type.

(** The body of
    [useEffect(() => { if (searchQuery !== searchInputValue) setSearchInputValue(searchQuery); }, [searchQuery])]. *)
Definition syncSearchInput (v : View P) : View P :=
  if String.eqb (searchQuery v) (searchInputValue v) then v
  else handleInputChange (searchQuery v) v.

(** The event is a submitted search. *)
Definition is_search (e : event P) : bool :=
  match e with
  | Search => true
  | _ => false
  end.

End SearchViewEffects.

(** ** [knowledge-search-sidebar.tsx]: the filter state *)

Module Sidebar.

(** [keyof Filters] *)
Inductive FilterKey : Type :=
| key_department
| key_moduleId
| key_appSpecificRecordType
| key_connector.

(** [Filters]: every property may be missing. *)
Record Filters := mkFilters {
  department : option (list string);
  moduleId : option (list string);
  appSpecificRecordType : option (list string);
  connector : option (list string)
}.

(** [filters[filterType]] *)
Definition get (k : FilterKey) (filters : Filters) : option (list string) :=
  match k with
  | key_department => department filters
  | key_moduleId => moduleId filters
  | key_appSpecificRecordType => appSpecificRecordType filters
  | key_connector => connector filters
  end.

(** [{ ...filters, [filterType]: l }] *)
Definition set (k : FilterKey) (l : list string) (filters : Filters) : Filters :=
  match k with
  | key_department =>
      {| department := Some l; moduleId := moduleId filters;
         appSpecificRecordType := appSpecificRecordType filters;
         connector := connector filters |}
  | key_moduleId =>
      {| department := department filters; moduleId := Some l;
         appSpecificRecordType := appSpecificRecordType filters;
         connector := connector filters |}
  | key_appSpecificRecordType =>
      {| department := department filters; moduleId := moduleId filters;
         appSpecificRecordType := Some l;
         connector := connector filters |}
  | key_connector =>
      {| department := department filters; moduleId := moduleId filters;
         appSpecificRecordType := appSpecificRecordType filters;
         connector := Some l |}
  end.

(** [filters[filterType] || []] *)
Definition values (k : FilterKey) (filters : Filters) : list string :=
  match get k filters with
  | Some l => l
  | None => []
  end.

(** [l.filter((item) => item !== value)] *)
Definition without (value : string) (l : list string) : list string :=
  filter (fun item => negb (String.eqb item value)) l.

(** [handleFilterChange(filterType, value)]: the filters handed to
    [onFilterChange]. *)
Definition handleFilterChange (k : FilterKey) (value : string)
    (filters : Filters) : Filters :=
  let currentFilterValues := values k filters in
  set k
      (if includes currentFilterValues value
       then without value currentFilterValues
       else currentFilterValues ++ [value])
      filters.

(** [clearFilter(type, value)] *)
Definition clearFilter (k : FilterKey) (value : string) (filters : Filters)
  : Filters :=
  set k (without value (values k filters)) filters.

(** [clearAllFilters()] *)
Definition clearAllFilters : Filters :=
  {| department := Some []; moduleId := Some [];
     appSpecificRecordType := Some []; connector := Some [] |}.

(** [getActiveFilterCount(filterType)] *)
Definition getActiveFilterCount (k : FilterKey) (filters : Filters) : nat :=
  List.length (values k filters).

(** [getTotalActiveFilterCount()]:
    [Object.values(filters).reduce((acc, curr) => acc + (curr || []).length, 0)]. *)
Definition getTotalActiveFilterCount (filters : Filters) : nat :=
  fold_left
    (fun acc curr =>
       acc + List.length (match curr with Some l => l | None => [] end))
    [department filters; moduleId filters; appSpecificRecordType filters;
     connector filters]
    0.

(** [hasActiveFilters] *)
Definition hasActiveFilters (filters : Filters) : bool :=
  (0 <? getTotalActiveFilterCount filters)%nat.

(** What the user can do to the filters. *)
Inductive action : Type :=
| Toggle (k : FilterKey) (value : string)
| DeleteChip (k : FilterKey) (value : string)
| ClearAll.

Definition apply (a : action) (filters : Filters) : Filters :=
  match a with
  | Toggle k value => handleFilterChange k value filters
  | DeleteChip k value => clearFilter k value filters
  | ClearAll => clearAllFilters
  end.

Definition apply_all (actions : list action) (filters : Filters) : Filters :=
  fold_left (fun fs a => apply a fs) actions filters.

Definition key_eqb (a b : FilterKey) : bool :=
  match a, b with
  | key_department, key_department
  | key_moduleId, key_moduleId
  | key_appSpecificRecordType, key_appSpecificRecordType
  | key_connector, key_connector => true
  | _, _ => false
  end.

End Sidebar.

(** Filters handed down by a parent that never set [connector]. *)
Definition filters_without_connector : Sidebar.Filters :=
  {| Sidebar.department := Some ["engineering"];
     Sidebar.moduleId := Some [];
     Sidebar.appSpecificRecordType := Some [];
     Sidebar.connector := None |}.

(** ** A generated id that collides with a backend id *)

(** One citation whose backend id is a string of digits. *)
Definition batch_with_numeric_id : list DocumentContent.t :=
  [citation_of (Some unit_box) (Some 1%float) (Some "8437592") "cited"].

(** The viewer after mapping that batch and after the user then drew an area
    highlight: [sample_world]'s next draw renders as ["0.8437592"], so the
    new highlight gets the id the mapped one already has. *)
Definition held_after_id_collision : Highlighter :=
  fst (addHighlight
         {| Content.text := None;
            Content.image := Some "data:image/png;base64,AAAA" |}
         {| Position.boundingRect := sample_rect 100;
            Position.rects := [sample_rect 100];
            Position.pageNumber := 1%float |}
         None
         (fst (processCitationsWithHighlights (Some batch_with_numeric_id)
                                              sample_world))
         (snd (processCitationsWithHighlights (Some batch_with_numeric_id)
                                              sample_world))).
(** * Properties of the coordinate mapper *)

Unset Implicit Arguments.

Section MapperFacts.

Import HighlightType.

Lemma invalid_box_four (pts : list BoundingBox.t) :
  invalid_box (Some pts) = false ->
  exists p0 p1 p2 p3, pts = [p0; p1; p2; p3].
Proof.
  unfold invalid_box. intro H.
  apply negb_false_iff, Nat.eqb_eq in H.
  destruct pts as [|p0 [|p1 [|p2 [|p3 [|p4 rest]]]]]; simpl in H; try discriminate.
  now exists p0, p1, p2, p3.
Qed.

Lemma valid_inv (c : DocumentContent.t) :
  valid c = true ->
  exists m p0 p1 p2 p3,
    DocumentContent.metadata c = Some m /\
    Metadata.bounding_box m = Some [p0; p1; p2; p3].
Proof.
  unfold valid, bounding_box_of. intro H. apply negb_true_iff in H.
  destruct (DocumentContent.metadata c) as [m|]; [|discriminate].
  destruct (Metadata.bounding_box m) as [pts|] eqn:E; [|discriminate].
  destruct (invalid_box_four _ H) as (p0 & p1 & p2 & p3 & ->).
  now exists m, p0, p1, p2, p3.
Qed.

(** A rejected citation yields [null] and exactly one warning. *)
Lemma processHighlight_rejected (c : DocumentContent.t) (w : World) :
  valid c = false ->
  processHighlight c w = (None, log (rejection c) w).
Proof.
  unfold valid, processHighlight, processHighlight_try, rejection.
  intro H. apply negb_false_iff in H. now rewrite H.
Qed.

(** An accepted citation yields its highlight; the [catch] branch is never
    taken and nothing is logged. *)
Lemma processHighlight_accepted (c : DocumentContent.t) (w : World)
    (m : Metadata.t) (p0 p1 p2 p3 : BoundingBox.t) :
  DocumentContent.metadata c = Some m ->
  Metadata.bounding_box m = Some [p0; p1; p2; p3] ->
  processHighlight c w =
    (Some (built c p0 p2 (fst (or_getNextId (Metadata._id m) w))),
     snd (or_getNextId (Metadata._id m) w)).
Proof.
  intros Hm Hb.
  unfold processHighlight, processHighlight_try, bounding_box_of, assign_id.
  rewrite Hm, Hb. simpl.
  destruct (or_getNextId (Metadata._id m) w) as [i w']. reflexivity.
Qed.

Lemma or_getNextId_console (a : option string) (w : World) :
  console (snd (or_getNextId a w)) = console w.
Proof.
  unfold or_getNextId, getNextId.
  destruct a as [s|]; [destruct (JS.truthy_string s)|]; reflexivity.
Qed.

Lemma truthy_string_nonempty (s : string) :
  JS.truthy_string s = true <-> s <> EmptyString.
Proof.
  destruct s; simpl; split; intro H; congruence.
Qed.

(** What the batch map does to the console, and which entries carry a
    highlight. *)
Lemma map_processHighlight_spec (cs : list DocumentContent.t) :
  forall w,
    map ProcessedCitation.citation (fst (map_processHighlight cs w)) = cs /\
    Forall (fun pc => has_highlight pc = valid (ProcessedCitation.citation pc))
           (fst (map_processHighlight cs w)) /\
    console (snd (map_processHighlight cs w)) =
      console w ++ map rejection (filter (fun c => negb (valid c)) cs).
Proof.
  induction cs as [|c rest IH]; intro w; simpl.
  - repeat split; [constructor | now rewrite app_nil_r].
  - destruct (valid c) eqn:V.
    + destruct (valid_inv _ V) as (m & p0 & p1 & p2 & p3 & Hm & Hb).
      rewrite (processHighlight_accepted c w m p0 p1 p2 p3 Hm Hb).
      specialize (IH (snd (or_getNextId (Metadata._id m) w))).
      destruct (map_processHighlight rest _) as [tail w2].
      simpl in *. destruct IH as (IH1 & IH2 & IH3).
      repeat split.
      * now rewrite IH1.
      * constructor; [exact (eq_sym V) | exact IH2].
      * now rewrite IH3, or_getNextId_console.
    + rewrite (processHighlight_rejected c w V).
      specialize (IH (log (rejection c) w)).
      destruct (map_processHighlight rest _) as [tail w2].
      simpl in *. destruct IH as (IH1 & IH2 & IH3).
      repeat split.
      * now rewrite IH1.
      * constructor; [exact (eq_sym V) | exact IH2].
      * now rewrite IH3, <- app_assoc.
Qed.

Lemma collect_highlights_length (l : list ProcessedCitation.t) :
  List.length (collect_highlights (filter has_highlight l)) =
  List.length (filter has_highlight l).
Proof.
  induction l as [|pc l IH]; simpl; [reflexivity|].
  destruct (has_highlight pc) eqn:E; [|exact IH].
  unfold has_highlight in E. simpl.
  destruct (ProcessedCitation.highlight pc); [|discriminate].
  simpl. now rewrite IH.
Qed.

Lemma collect_highlights_some (l : list ProcessedCitation.t) :
  map Some (collect_highlights (filter has_highlight l)) =
  map ProcessedCitation.highlight (filter has_highlight l).
Proof.
  induction l as [|pc l IH]; simpl; [reflexivity|].
  destruct (has_highlight pc) eqn:E; [|exact IH].
  unfold has_highlight in E. simpl.
  destruct (ProcessedCitation.highlight pc); [|discriminate].
  simpl. now rewrite IH.
Qed.

Lemma filter_has_highlight_citations (l : list ProcessedCitation.t) :
  Forall (fun pc => has_highlight pc = valid (ProcessedCitation.citation pc)) l ->
  map ProcessedCitation.citation (filter has_highlight l) =
  filter valid (map ProcessedCitation.citation l).
Proof.
  induction 1 as [|pc l Hpc _ IH]; simpl; [reflexivity|].
  rewrite <- Hpc. destruct (has_highlight pc); simpl; now rewrite IH.
Qed.

End MapperFacts.

(** ** Scaling *)

(** Two float literals are told apart by comparing both with the second. *)
Ltac float_discr H c :=
  apply (f_equal (fun f => PrimFloat.eqb f c)) in H;
  vm_compute in H; discriminate H.

(** C1 (amended): for every citation with a 4-point bounding box the mapper
    returns a highlight whose bounding rectangle has [(x1, y1)] equal to
    corner 0 scaled by [PAGE_WIDTH] and [PAGE_HEIGHT] and [(x2, y2)] equal to
    corner 2 scaled likewise, and whose [rects] list is that one rectangle;
    corners [(0, 0)] and [(1, 1)] map to
    [(0, 0, 967, 747.2272727272727)]. *)
Theorem mapper_scales_corners
    (c : DocumentContent.t) (m : Metadata.t) (p0 p1 p2 p3 : BoundingBox.t)
    (w : World) :
  DocumentContent.metadata c = Some m ->
  Metadata.bounding_box m = Some [p0; p1; p2; p3] ->
  exists h w',
    processHighlight c w = (Some h, w') /\
    let r := Position.boundingRect (HighlightType.position h) in
    Rect.x1 r = (BoundingBox.x p0 * PAGE_WIDTH)%float /\
    Rect.y1 r = (BoundingBox.y p0 * PAGE_HEIGHT)%float /\
    Rect.x2 r = (BoundingBox.x p2 * PAGE_WIDTH)%float /\
    Rect.y2 r = (BoundingBox.y p2 * PAGE_HEIGHT)%float /\
    Position.rects (HighlightType.position h) = [r] /\
    (p0 = pt 0 0 -> p2 = pt 1 1 ->
     Rect.x1 r = 0%float /\ Rect.y1 r = 0%float /\
     Rect.x2 r = 967%float /\ Rect.y2 r = 747.2272727272727%float).
Proof.
  intros Hm Hb.
  rewrite (processHighlight_accepted c w m p0 p1 p2 p3 Hm Hb).
  eexists; eexists; split; [reflexivity|].
  cbn. repeat split.
  all: intros; subst; vm_compute; reflexivity.
Qed.

Lemma mapper_scales_corners_witness :
  exists h w',
    processHighlight
      (citation_of (Some unit_box) (Some 1%float) (Some "abc123") "text")
      sample_world = (Some h, w') /\
    Rect.x2 (Position.boundingRect (HighlightType.position h)) = 967%float.
Proof.
  destruct (mapper_scales_corners
              (citation_of (Some unit_box) (Some 1%float) (Some "abc123") "text")
              _ (pt 0 0) (pt 1 0) (pt 1 1) (pt 0 1) sample_world
              eq_refl eq_refl)
    as (h & w' & E & _ & _ & _ & _ & _ & S).
  exists h, w'. split; [exact E|].
  exact (proj1 (proj2 (proj2 (S eq_refl eq_refl)))).
Defined.

(** C1 as stated fails: the full-page box does not get [y2 = 747.23]. *)
Lemma full_page_height_is_not_747_23 :
  exists h w',
    processHighlight
      (citation_of (Some unit_box) (Some 1%float) (Some "abc123") "text")
      sample_world = (Some h, w') /\
    Rect.y2 (Position.boundingRect (HighlightType.position h)) <> 747.23%float.
Proof.
  eexists; eexists; split; [reflexivity|].
  intro H. float_discr H 747.23%float.
Qed.

(** ** Page dimensions *)

(** C9 (amended): every mapped highlight carries the fixed page size
    [PAGE_WIDTH x PAGE_HEIGHT], whatever page the citation declares; the
    mapper consults no page-dimension lookup and logs nothing for an accepted
    citation. *)
Theorem mapper_uses_fixed_page_size
    (c : DocumentContent.t) (w w' : World) (h : HighlightType.t) :
  processHighlight c w = (Some h, w') ->
  Rect.width (Position.boundingRect (HighlightType.position h)) = PAGE_WIDTH /\
  Rect.height (Position.boundingRect (HighlightType.position h)) = PAGE_HEIGHT /\
  console w' = console w.
Proof.
  intro H.
  destruct (valid c) eqn:V.
  - destruct (valid_inv c V) as (m & p0 & p1 & p2 & p3 & Hm & Hb).
    rewrite (processHighlight_accepted c w m p0 p1 p2 p3 Hm Hb) in H.
    injection H as <- <-. cbn. repeat split.
    apply or_getNextId_console.
  - rewrite (processHighlight_rejected c w V) in H. discriminate H.
Qed.

Lemma mapper_uses_fixed_page_size_witness :
  exists h w',
    processHighlight
      (citation_of (Some unit_box) (Some 7%float) None "text") sample_world
      = (Some h, w') /\
    Rect.width (Position.boundingRect (HighlightType.position h)) = PAGE_WIDTH.
Proof.
  eexists; eexists; split; [reflexivity|].
  exact (proj1 (mapper_uses_fixed_page_size
                  (citation_of (Some unit_box) (Some 7%float) None "text")
                  sample_world _ _ eq_refl)).
Defined.

(** C9 as stated fails: a lookup that knows page 1 to be 612 x 792 is not
    reflected in the mapped rectangle. *)
Lemma known_page_size_is_ignored :
  ~ (forall (pageDimensions : float -> option (float * float))
            (c : DocumentContent.t) (w w' : World) (h : HighlightType.t)
            (width height : float),
        processHighlight c w = (Some h, w') ->
        pageDimensions (Position.pageNumber (HighlightType.position h))
          = Some (width, height) ->
        Rect.width (Position.boundingRect (HighlightType.position h)) = width /\
        Rect.height (Position.boundingRect (HighlightType.position h)) = height).
Proof.
  intro claim.
  destruct (claim (fun _ => Some (612%float, 792%float))
                  (citation_of (Some unit_box) (Some 1%float) None "text")
                  sample_world _ _ 612%float 792%float eq_refl eq_refl)
    as [W _].
  cbn in W. float_discr W 612%float.
Qed.

(** ** Page number *)

(** C10: when the citation has no page number, or a falsy one ([0], [-0],
    [NaN]), the mapped highlight is on page 1, in the position and in its
    rectangles alike, so its page number is at least 1. *)
Theorem missing_page_number_defaults_to_one
    (c : DocumentContent.t) (w w' : World) (h : HighlightType.t) :
  processHighlight c w = (Some h, w') ->
  (pageNum_of c = None \/
   exists n, pageNum_of c = Some n /\ JS.truthy_number n = false) ->
  Position.pageNumber (HighlightType.position h) = 1%float /\
  Rect.pageNumber (Position.boundingRect (HighlightType.position h)) = 1%float /\
  Forall (fun r => Rect.pageNumber r = 1%float)
         (Position.rects (HighlightType.position h)) /\
  PrimFloat.leb 1%float (Position.pageNumber (HighlightType.position h)) = true.
Proof.
  intros H Hp.
  assert (E : JS.or_number (pageNum_of c) 1%float = 1%float).
  { destruct Hp as [-> | (n & -> & T)]; cbn; [reflexivity | now rewrite T]. }
  destruct (valid c) eqn:V.
  - destruct (valid_inv c V) as (m & p0 & p1 & p2 & p3 & Hm & Hb).
    rewrite (processHighlight_accepted c w m p0 p1 p2 p3 Hm Hb) in H.
    injection H as <- <-. unfold built, mainRect. cbn. rewrite E.
    repeat split. constructor; [reflexivity | constructor].
  - rewrite (processHighlight_rejected c w V) in H. discriminate H.
Qed.

Lemma missing_page_number_defaults_to_one_witness :
  exists h w',
    processHighlight (citation_of (Some unit_box) (Some 0%float) None "text")
                     sample_world = (Some h, w') /\
    Position.pageNumber (HighlightType.position h) = 1%float.
Proof.
  eexists; eexists; split; [reflexivity|].
  refine (proj1 (missing_page_number_defaults_to_one
                   (citation_of (Some unit_box) (Some 0%float) None "text")
                   sample_world _ _ eq_refl _)).
  right. exists 0%float. split; reflexivity.
Defined.

(** ** Batches *)

(** C2: a batch is always mapped to a result; the citations kept are exactly
    those whose box has 4 points, in order, each with a highlight; every
    citation whose box is missing or of another length is dropped with one
    warning, and nothing else is logged (the [catch] branch is never
    entered).  In a batch of 5 whose third box has 2 points and whose other
    boxes are well-formed, 4 highlights come back and one diagnostic is
    logged. *)
Theorem malformed_boxes_are_skipped (cs : list DocumentContent.t) (w : World) :
  let st := fst (processCitationsWithHighlights (Some cs) w) in
  let w' := snd (processCitationsWithHighlights (Some cs) w) in
  map ProcessedCitation.citation (processedCitations st) = filter valid cs /\
  map Some (highlights st)
    = map ProcessedCitation.highlight (processedCitations st) /\
  List.length (highlights st) = List.length (filter valid cs) /\
  console w' = console w ++ map rejection (filter (fun c => negb (valid c)) cs) /\
  (forall c1 c2 c3 c4 c5 p q,
      cs = [c1; c2; c3; c4; c5] ->
      valid c1 = true -> valid c2 = true ->
      bounding_box_of c3 = Some [p; q] ->
      valid c4 = true -> valid c5 = true ->
      List.length (highlights st) = 4 /\
      map ProcessedCitation.citation (processedCitations st) = [c1; c2; c4; c5] /\
      console w' = console w ++ [rejection c3]).
Proof.
  assert (G : let st := fst (processCitationsWithHighlights (Some cs) w) in
              let w' := snd (processCitationsWithHighlights (Some cs) w) in
              map ProcessedCitation.citation (processedCitations st)
                = filter valid cs /\
              map Some (highlights st)
                = map ProcessedCitation.highlight (processedCitations st) /\
              List.length (highlights st) = List.length (filter valid cs) /\
              console w' = console w
                ++ map rejection (filter (fun c => negb (valid c)) cs)).
  { destruct cs as [|c0 rest].
    - cbn. now rewrite app_nil_r.
    - unfold processCitationsWithHighlights.
      pose proof (map_processHighlight_spec (c0 :: rest) w) as (S1 & S2 & S3).
      destruct (map_processHighlight (c0 :: rest) w) as [mapped w1].
      cbn [fst snd highlights processedCitations] in *.
      pose proof (filter_has_highlight_citations mapped S2) as F.
      rewrite S1 in F.
      repeat split.
      + exact F.
      + apply collect_highlights_some.
      + now rewrite collect_highlights_length, <- F, length_map.
      + exact S3. }
  cbv zeta in *. destruct G as (G1 & G2 & G3 & G4).
  split; [exact G1 | split; [exact G2 | split; [exact G3 | split; [exact G4|]]]].
  intros c1 c2 c3 c4 c5 p q -> V1 V2 B3 V4 V5.
  assert (V3 : valid c3 = false) by (unfold valid; now rewrite B3).
  split; [|split].
  - rewrite G3. cbn. now rewrite V1, V2, V3, V4, V5.
  - rewrite G1. cbn. now rewrite V1, V2, V3, V4, V5.
  - rewrite G4. cbn. now rewrite V1, V2, V3, V4, V5.
Qed.

Lemma malformed_boxes_are_skipped_witness :
  List.length
    (highlights (fst (processCitationsWithHighlights (Some batch_of_five)
                                                     sample_world))) = 4 /\
  console (snd (processCitationsWithHighlights (Some batch_of_five)
                                               sample_world))
    = [console_warn "Invalid bounding box:" (Some two_point_box)].
Proof.
  destruct (malformed_boxes_are_skipped batch_of_five sample_world)
    as (_ & _ & _ & _ & F).
  destruct (F _ _ _ _ _ (pt 0 0) (pt 1 1) eq_refl eq_refl eq_refl eq_refl
              eq_refl eq_refl) as (L & _ & C).
  split; [exact L | exact C].
Defined.

(** ** Identity *)

Lemma or_getNextId_source (s : string) (w : World) :
  s <> EmptyString -> or_getNextId (Some s) w = (s, w).
Proof.
  intro H. apply truthy_string_nonempty in H.
  unfold or_getNextId. now rewrite H.
Qed.

Lemma or_getNextId_fresh (a : option string) (w : World) :
  a = None \/ a = Some EmptyString ->
  or_getNextId a w = getNextId w.
Proof. intros [-> | ->]; reflexivity. Qed.

(** What [processHighlight] returns, in terms of the citation's source id. *)
Lemma processHighlight_id (c : DocumentContent.t) (w w' : World)
    (h : HighlightType.t) :
  processHighlight c w = (Some h, w') ->
  (HighlightType.id h, w') = or_getNextId (sourceId_of c) w.
Proof.
  intro H.
  destruct (valid c) eqn:V.
  - destruct (valid_inv c V) as (m & p0 & p1 & p2 & p3 & Hm & Hb).
    rewrite (processHighlight_accepted c w m p0 p1 p2 p3 Hm Hb) in H.
    injection H as <- <-. unfold sourceId_of. rewrite Hm. cbn.
    now destruct (or_getNextId (Metadata._id m) w).
  - rewrite (processHighlight_rejected c w V) in H. discriminate H.
Qed.

(** C3: a mapped highlight takes the citation's source id as its id whenever
    that id is present and non-empty, without drawing a random number, so
    every other run on the same citation gives the same id; when the source
    id is absent or empty the id is [getNextId()]'s result, the random draw's
    decimal string stripped of its first two characters. *)
Theorem highlight_id_is_source_id
    (c : DocumentContent.t) (w w' : World) (h : HighlightType.t) :
  processHighlight c w = (Some h, w') ->
  (forall s, sourceId_of c = Some s -> s <> EmptyString ->
     HighlightType.id h = s /\ w' = w /\
     forall w2 w2' h2,
       processHighlight c w2 = (Some h2, w2') ->
       HighlightType.id h2 = HighlightType.id h) /\
  (sourceId_of c = None \/ sourceId_of c = Some EmptyString ->
     HighlightType.id h = JS.slice 2 (Math_random w (draws w)) /\
     draws w' = S (draws w)).
Proof.
  intro H. apply processHighlight_id in H. split.
  - intros s Hs Hne. rewrite Hs, (or_getNextId_source s w Hne) in H.
    injection H as Hi Hw. repeat split; [exact Hi | exact Hw |].
    intros w2 w2' h2 H2. apply processHighlight_id in H2.
    rewrite Hs, (or_getNextId_source s w2 Hne) in H2.
    injection H2 as Hi2 _. congruence.
  - intro Hs. rewrite (or_getNextId_fresh _ w Hs) in H.
    unfold getNextId in H. injection H as Hi Hw. subst w'. now split.
Qed.

Lemma highlight_id_is_source_id_witness :
  exists h w',
    processHighlight
      (citation_of (Some unit_box) (Some 1%float) (Some "abc123") "text")
      sample_world = (Some h, w') /\
    HighlightType.id h = "abc123".
Proof.
  eexists; eexists; split; [reflexivity|].
  refine (proj1 (proj1 (highlight_id_is_source_id
                          (citation_of (Some unit_box) (Some 1%float)
                                       (Some "abc123") "text")
                          sample_world _ _ eq_refl) "abc123" eq_refl _)).
  discriminate.
Defined.

Lemma fresh_ids_step (w : World) (k : nat) :
  fresh_ids w (S k) =
  fst (getNextId w) :: fresh_ids (snd (getNextId w)) k.
Proof.
  unfold fresh_ids, getNextId. cbn [fst snd draws Math_random seq map].
  rewrite Nat.add_0_r. f_equal.
  rewrite <- seq_shift, map_map. apply map_ext. intro j.
  now rewrite Nat.add_succ_r.
Qed.

Lemma fresh_ids_log (d : Diagnostic) (w : World) (k : nat) :
  fresh_ids (log d w) k = fresh_ids w k.
Proof. reflexivity. Qed.

(** The ids of a batch are the source ids of the accepted citations that
    carry one, interleaved with the ids drawn for the others. *)
Lemma batch_ids_permutation (cs : list DocumentContent.t) :
  forall w,
    Permutation
      (map HighlightType.id
           (collect_highlights
              (filter has_highlight (fst (map_processHighlight cs w)))))
      (source_ids cs ++ fresh_ids w (needs_fresh_id cs)).
Proof.
  induction cs as [|c rest IH]; intro w; [constructor|].
  simpl map_processHighlight.
  destruct (processHighlight c w) as [r w1] eqn:E.
  specialize (IH w1).
  destruct (map_processHighlight rest w1) as [tail w2].
  unfold needs_fresh_id in *. simpl in IH |- *.
  destruct (valid c) eqn:V.
  - destruct (valid_inv c V) as (m & p0 & p1 & p2 & p3 & Hm & Hb).
    rewrite (processHighlight_accepted c w m p0 p1 p2 p3 Hm Hb) in E.
    injection E as <- <-.
    unfold has_highlight at 1. simpl.
    unfold has_source_id, sourceId_of in *. rewrite Hm in *.
    destruct (Metadata._id m) as [s|] eqn:Hs.
    + destruct (JS.truthy_string s) eqn:T; simpl.
      * unfold or_getNextId in *. rewrite T in *. simpl.
        now constructor.
      * unfold or_getNextId in *. rewrite T in *.
        rewrite fresh_ids_step.
        now apply Permutation_cons_app.
    + simpl. unfold or_getNextId in *.
      rewrite fresh_ids_step.
      now apply Permutation_cons_app.
  - rewrite (processHighlight_rejected c w V) in E.
    injection E as <- <-. unfold has_highlight at 1. simpl.
    rewrite fresh_ids_log in IH.
    destruct (sourceId_of c); exact IH.
Qed.

(** C8 (amended): the ids in one invocation's output are, up to order, the
    non-empty source ids of the accepted citations together with the ids
    generated for the accepted citations that have none; they are pairwise
    distinct exactly when those source ids and generated ids are.  The mapper
    copies source ids and does no de-duplication of its own. *)
Theorem ids_are_distinct_when_sources_and_draws_are
    (cs : list DocumentContent.t) (w : World) :
  let ids := map HighlightType.id
                 (highlights (fst (processCitationsWithHighlights (Some cs) w))) in
  Permutation ids (source_ids cs ++ fresh_ids w (needs_fresh_id cs)) /\
  (NoDup (source_ids cs ++ fresh_ids w (needs_fresh_id cs)) -> NoDup ids) /\
  (NoDup ids -> NoDup (source_ids cs ++ fresh_ids w (needs_fresh_id cs))).
Proof.
  assert (Perm : Permutation
            (map HighlightType.id
               (highlights (fst (processCitationsWithHighlights (Some cs) w))))
            (source_ids cs ++ fresh_ids w (needs_fresh_id cs))).
  { destruct cs as [|c0 rest]; [constructor|].
    unfold processCitationsWithHighlights.
    pose proof (batch_ids_permutation (c0 :: rest) w) as B.
    now destruct (map_processHighlight (c0 :: rest) w) as [mapped w1]. }
  cbv zeta. split; [exact Perm|]. split; intro H.
  - exact (Permutation_NoDup (Permutation_sym Perm) H).
  - exact (Permutation_NoDup Perm H).
Qed.

Lemma ids_are_distinct_when_sources_and_draws_are_witness :
  NoDup (map HighlightType.id
             (highlights
                (fst (processCitationsWithHighlights
                        (Some batch_with_distinct_ids) sample_world)))).
Proof.
  apply (proj1 (proj2 (ids_are_distinct_when_sources_and_draws_are
                         batch_with_distinct_ids sample_world))).
  vm_compute. repeat constructor; cbn; intuition discriminate.
Defined.

(** C8 as stated fails: two citations sharing a source id yield two
    highlights with the same id. *)
Lemma shared_source_id_gives_duplicate_ids :
  map HighlightType.id
      (highlights (fst (processCitationsWithHighlights
                          (Some batch_with_shared_id) sample_world)))
    = ["dup"; "dup"] /\
  ~ NoDup (map HighlightType.id
               (highlights (fst (processCitationsWithHighlights
                                   (Some batch_with_shared_id) sample_world)))).
Proof.
  split; [reflexivity|].
  intro H. cbn in H. inversion H as [|? ? Hin _]. apply Hin. now left.
Qed.

(** ** Local mutation *)

Lemma update_one_other (hid : string) (pos : Position.partial)
    (cont : Content.t) (h : HighlightType.t) :
  HighlightType.id h <> hid -> update_one hid pos cont h = h.
Proof.
  intro H. unfold update_one.
  apply String.eqb_neq in H. now rewrite H.
Qed.

Lemma update_one_id (hid : string) (pos : Position.partial)
    (cont : Content.t) (h : HighlightType.t) :
  HighlightType.id (update_one hid pos cont h) = HighlightType.id h.
Proof.
  unfold update_one.
  now destruct (String.eqb (HighlightType.id h) hid).
Qed.

(** C7 (amended): an update addressed to an id keeps the sequence's length,
    the order of the ids and every comment; at each index, an item with
    another id is left exactly as it was, and an item with that id has its
    position and content merged with the update in place.  When a single held
    item carries the id, it is the only one that can differ afterwards. *)
Theorem update_touches_only_the_addressed_id
    (hid : string) (pos : Position.partial) (cont : Content.t)
    (st : Highlighter) :
  let st' := updateHighlight hid pos cont st in
  List.length (highlights st') = List.length (highlights st) /\
  map HighlightType.id (highlights st') = map HighlightType.id (highlights st) /\
  processedCitations st' = processedCitations st /\
  (forall i h,
      nth_error (highlights st) i = Some h ->
      exists h',
        nth_error (highlights st') i = Some h' /\
        HighlightType.id h' = HighlightType.id h /\
        HighlightType.comment h' = HighlightType.comment h /\
        (HighlightType.id h <> hid -> h' = h) /\
        (HighlightType.id h = hid ->
           HighlightType.position h'
             = Position.merge (HighlightType.position h) pos /\
           HighlightType.content h'
             = Content.merge (HighlightType.content h) cont)) /\
  (forall i h,
      NoDup (map HighlightType.id (highlights st)) ->
      nth_error (highlights st) i = Some h ->
      HighlightType.id h = hid ->
      forall j, j <> i ->
        nth_error (highlights st') j = nth_error (highlights st) j).
Proof.
  cbv zeta. unfold updateHighlight. cbn [highlights processedCitations].
  split; [apply length_map|].
  split.
  { rewrite map_map. apply map_ext. intro h. apply update_one_id. }
  split; [reflexivity|].
  split.
  - intros i h Hi. exists (update_one hid pos cont h).
    split; [now rewrite nth_error_map, Hi|].
    split; [apply update_one_id|].
    unfold update_one.
    destruct (String.eqb (HighlightType.id h) hid) eqn:E; cbn.
    + apply String.eqb_eq in E. repeat split; congruence.
    + apply String.eqb_neq in E. repeat split; congruence.
  - intros i h Hnd Hi Hid j Hji.
    rewrite nth_error_map.
    destruct (nth_error (highlights st) j) as [g|] eqn:Hj; [|reflexivity].
    cbn. f_equal. apply update_one_other. intro Hg.
    apply Hji.
    apply (proj1 (NoDup_nth_error (map HighlightType.id (highlights st))) Hnd).
    + apply nth_error_Some. rewrite nth_error_map, Hj. discriminate.
    + rewrite !nth_error_map, Hi, Hj. cbn. congruence.
Qed.

Lemma update_touches_only_the_addressed_id_witness :
  nth_error
    (highlights
       (updateHighlight "b" no_position_change screenshot_only
          {| highlights := [highlight_of "a" "first"; highlight_of "b" "third"];
             processedCitations := [] |})) 0
  = Some (highlight_of "a" "first").
Proof.
  refine (proj2 (proj2 (proj2 (proj2
            (update_touches_only_the_addressed_id
               "b" no_position_change screenshot_only
               {| highlights := [highlight_of "a" "first"; highlight_of "b" "third"];
                  processedCitations := [] |})))) 1 (highlight_of "b" "third")
            _ eq_refl eq_refl 0 _).
  - cbn. repeat constructor; cbn; intuition discriminate.
  - discriminate.
Defined.

(** C7 as stated fails: the user draws an area highlight whose generated id
    equals the id of a mapped highlight already held, then resizes it; the
    resize, addressed to the drawn item, also rewrites the mapped one, which
    gets the screenshot and the new rectangle and stops being a text
    highlight. *)
Lemma area_resize_rewrites_a_mapped_highlight_with_the_same_id :
  map HighlightType.id (highlights held_after_id_collision)
    = ["8437592"; "8437592"] /\
  option_map isTextHighlight (nth_error (highlights held_after_id_collision) 0)
    = Some false /\
  nth_error (highlights held_after_id_collision) 1
    = nth_error
        (highlights (fst (processCitationsWithHighlights
                            (Some batch_with_numeric_id) sample_world))) 0 /\
  option_map isTextHighlight (nth_error (highlights held_after_id_collision) 1)
    = Some true /\
  (forall drawn,
      nth_error (highlights held_after_id_collision) 0 = Some drawn ->
      let after :=
        onAreaHighlightChange drawn (sample_rect 200)
          "data:image/png;base64,BBBB" held_after_id_collision in
      option_map (fun h => Content.image (HighlightType.content h))
                 (nth_error (highlights after) 1)
        = Some (Some "data:image/png;base64,BBBB") /\
      option_map isTextHighlight (nth_error (highlights after) 1) = Some false /\
      nth_error (highlights after) 1
        <> nth_error (highlights held_after_id_collision) 1).
Proof.
  split; [reflexivity|]. split; [reflexivity|]. split; [reflexivity|].
  split; [reflexivity|].
  intros drawn Hd. injection Hd as <-. cbv zeta.
  split; [reflexivity|]. split; [reflexivity|].
  intro H.
  apply (f_equal (option_map
                    (fun h => Content.image (HighlightType.content h)))) in H.
  cbn in H. discriminate H.
Qed.

(** * Properties of the search view *)

Lemma nth_error_update_at {A : Type} (f : A -> A) (l : list A) :
  forall i j,
    nth_error (update_at i f l) j =
    if Nat.eqb i j then option_map f (nth_error l j) else nth_error l j.
Proof.
  induction l as [|a l IH]; intros i j.
  - destruct i, j; simpl; try reflexivity; now destruct (Nat.eqb i j).
  - destruct i as [|i], j as [|j]; simpl; try reflexivity. apply IH.
Qed.

Lemma update_at_length {A : Type} (f : A -> A) (l : list A) :
  forall i, List.length (update_at i f l) = List.length l.
Proof.
  induction l as [|a l IH]; intros [|i]; simpl; try reflexivity.
  now rewrite IH.
Qed.


Section SearchViewFacts.

Import KnowledgeSearch.

Variable P : Type.
Variable cursor : P -> Z.


(** Observers after the ref callback ran outside a load. *)
Lemma lastResultElementRef_idle (pr : Props P) (node : option Node) (v : View P) :
  loading pr = false ->
  observers (lastResultElementRef pr node v) =
    (match observer_current v with
     | Some i => update_at i (@disconnect P) (observers v)
     | None => observers v
     end)
    ++ [{| closure_onTopKChange := onTopKChange pr;
           targets := match node with Some n => [n] | None => [] end |}]
  /\ observer_current (lastResultElementRef pr node v)
     = Some (List.length (observers v)).
Proof.
  intro L. unfold lastResultElementRef. rewrite L. cbn.
  set (os1 := match observer_current v with
              | Some i => update_at i (@disconnect P) (observers v)
              | None => observers v
              end).
  assert (Len : List.length os1 = List.length (observers v)).
  { unfold os1. destruct (observer_current v); [apply update_at_length | reflexivity]. }
  split; [|now rewrite Len].
  destruct node as [n|]; [|reflexivity].
  apply nth_error_ext. intro j.
  rewrite nth_error_update_at.
  destruct (Nat.eqb (List.length os1) j) eqn:E.
  - apply Nat.eqb_eq in E. subst j.
    rewrite !nth_error_app2, Nat.sub_diag by lia. reflexivity.
  - apply Nat.eqb_neq in E.
    destruct (Nat.lt_ge_cases j (List.length os1)) as [Lt|Ge].
    + now rewrite !nth_error_app1 by lia.
    + rewrite !nth_error_app2 by lia.
      destruct (j - List.length os1) as [|k] eqn:D; [lia|].
      simpl. now destruct k.
Qed.

Lemma lastResultElementRef_loading (pr : Props P) (node : option Node)
    (v : View P) :
  loading pr = true -> lastResultElementRef pr node v = v.
Proof. intro L. unfold lastResultElementRef. now rewrite L. Qed.

Lemma lastResultElementRef_frame (pr : Props P) (node : option Node)
    (v : View P) :
  parent (lastResultElementRef pr node v) = parent v /\
  props (lastResultElementRef pr node v) = props v /\
  attached (lastResultElementRef pr node v) = attached v.
Proof.
  unfold lastResultElementRef. destruct (loading pr); repeat split.
Qed.

(** Disconnecting [observer.current] silences a view in which only it was
    armed. *)
Lemma disconnect_current_quiet (v : View P) (n : Node) :
  armed_on n v ->
  forall j o,
    nth_error (match observer_current v with
               | Some i => update_at i (@disconnect P) (observers v)
               | None => observers v
               end) j = Some o ->
    targets o = [].
Proof.
  intros A j o H.
  destruct (observer_current v) as [i|] eqn:C.
  - rewrite nth_error_update_at in H.
    destruct (Nat.eqb i j) eqn:E.
    + destruct (nth_error (observers v) j); [|discriminate].
      injection H as <-. reflexivity.
    + apply Nat.eqb_neq in E.
      destruct (A j o H) as [T | [Cj _]]; [exact T|].
      rewrite C in Cj. congruence.
  - destruct (A j o H) as [T | [Cj _]]; [exact T|].
    rewrite C in Cj. discriminate.
Qed.

Lemma quiet_update_at (os : list (IntersectionObserver P)) (i : nat) :
  (forall j o, nth_error os j = Some o -> targets o = []) ->
  forall j o, nth_error (update_at i (@disconnect P) os) j = Some o -> targets o = [].
Proof.
  intros Q j o H. rewrite nth_error_update_at in H.
  destruct (Nat.eqb i j).
  - destruct (nth_error os j); [|discriminate]. now injection H as <-.
  - exact (Q j o H).
Qed.

(** Detaching the ref (the previous callback called with [null]) leaves no
    observer armed. *)
Lemma detach_quiet (v : View P) :
  armed_only_when_idle v ->
  quiet (match attached v with
         | Some _ => lastResultElementRef (props v) None v
         | None => v
         end).
Proof.
  unfold armed_only_when_idle. intro I.
  destruct (attached v) as [n|] eqn:A.
  - destruct (loading (props v)) eqn:L.
    + now rewrite lastResultElementRef_loading.
    + destruct (lastResultElementRef_idle (props v) None v L) as [Os _].
      intros j o H. unfold quiet in *. rewrite Os in H.
      assert (Len : List.length
                      (match observer_current v with
                       | Some i => update_at i (@disconnect P) (observers v)
                       | None => observers v
                       end) = List.length (observers v)).
      { destruct (observer_current v); [apply update_at_length | reflexivity]. }
      destruct (Nat.lt_ge_cases j (List.length (observers v))) as [Lt|Ge].
      * rewrite nth_error_app1 in H by lia.
        exact (disconnect_current_quiet v n I j o H).
      * rewrite nth_error_app2 in H by lia.
        destruct (j - _) as [|k]; simpl in H.
        -- now injection H as <-.
        -- now destruct k.
  - now destruct (loading (props v)).
Qed.

(** Attaching the ref outside a load arms exactly the new observer. *)
Lemma attach_armed (pr : Props P) (n : Node) (v : View P) :
  quiet v -> loading pr = false ->
  armed_on n (lastResultElementRef pr (Some n) v).
Proof.
  intros Q L j o H.
  destruct (lastResultElementRef_idle pr (Some n) v L) as [Os Cur].
  rewrite Os in H. rewrite Cur.
  assert (Len : List.length
                  (match observer_current v with
                   | Some i => update_at i (@disconnect P) (observers v)
                   | None => observers v
                   end) = List.length (observers v)).
  { destruct (observer_current v); [apply update_at_length | reflexivity]. }
  destruct (Nat.lt_ge_cases j (List.length (observers v))) as [Lt|Ge].
  - rewrite nth_error_app1 in H by lia. left.
    destruct (observer_current v) as [i|].
    + exact (quiet_update_at (observers v) i Q j o H).
    + exact (Q j o H).
  - rewrite nth_error_app2 in H by lia. rewrite Len in H.
    destruct (j - List.length (observers v)) as [|k] eqn:D; simpl in H.
    + injection H as <-. right. split; [f_equal; lia | reflexivity].
    + now destruct k.
Qed.

Lemma same_ref_callback_loading (old new : Props P) :
  same_ref_callback old new = true -> loading old = loading new.
Proof.
  unfold same_ref_callback. intro H. apply andb_true_iff in H as [H _].
  now apply Bool.eqb_prop.
Qed.

Lemma same_node_eq (a b : option Node) : same_node a b = true -> a = b.
Proof.
  destruct a, b; simpl; intro H; try discriminate; [|reflexivity].
  apply Nat.eqb_eq in H. now subst.
Qed.

(** A render keeps the arming invariant. *)
Lemma render_armed_only_when_idle (pr : Props P) (node : option Node)
    (v : View P) :
  armed_only_when_idle v -> armed_only_when_idle (render pr node v).
Proof.
  intro I. unfold render.
  destruct (same_ref_callback (props v) pr && same_node (attached v) node) eqn:S.
  - apply andb_true_iff in S as [S1 S2].
    apply same_ref_callback_loading in S1. apply same_node_eq in S2.
    unfold armed_only_when_idle in *. cbn. rewrite <- S1, <- S2. exact I.
  - pose proof (detach_quiet v I) as Q.
    set (v1 := match attached v with
               | Some _ => lastResultElementRef (props v) None v
               | None => v
               end) in *.
    unfold armed_only_when_idle. cbn.
    destruct (loading pr) eqn:L.
    + destruct node as [n|]; [now rewrite lastResultElementRef_loading | exact Q].
    + destruct node as [n|]; [exact (attach_armed pr n v1 Q L) | exact Q].
Qed.

Lemma mount_armed_only_when_idle (p : P) (pr : Props P) (node : option Node) :
  armed_only_when_idle (mount p pr node).
Proof.
  unfold mount.
  set (v0 := {| parent := p; props := pr; searchInputValue := EmptyString;
                searchQuery := EmptyString; hasSearched := false; observers := [];
                observer_current := None; attached := None |}).
  assert (Q : quiet v0) by (intros [|j] o H; discriminate H).
  unfold armed_only_when_idle. cbn.
  destruct (loading pr) eqn:L.
  - destruct node as [n|]; [now rewrite lastResultElementRef_loading | exact Q].
  - destruct node as [n|]; [exact (attach_armed pr n v0 Q L) | exact Q].
Qed.

Lemma step_armed_only_when_idle (e : event P) (v : View P) :
  armed_only_when_idle v -> armed_only_when_idle (step e v).
Proof.
  destruct e as [pr node | n b | value | |];
    [apply render_armed_only_when_idle | | | |]; intro I; exact I.
Qed.

Lemma run_armed_only_when_idle (evs : list (event P)) :
  forall v, armed_only_when_idle v -> armed_only_when_idle (run evs v).
Proof.
  induction evs as [|e evs IH]; intros v I; [exact I|].
  apply IH, step_armed_only_when_idle, I.
Qed.

(** *** Handlers captured by the observers *)






(** *** What the browser's report does to the parent *)

Lemma notify_quiet (n : Node) (b : bool) (os : list (IntersectionObserver P)) :
  (forall j o, nth_error os j = Some o -> targets o = []) ->
  forall p, fold_left (notify n b) os p = p.
Proof.
  induction os as [|a os IH]; intros Q p; [reflexivity|].
  simpl. unfold notify at 2. rewrite (Q 0 a eq_refl). simpl.
  apply IH. intros j o H. exact (Q (S j) o H).
Qed.

Lemma observer_callback_cursor (o : IntersectionObserver P) (b : bool) (p : P) :
  handler_ok cursor (closure_onTopKChange o) ->
  cursor (observer_callback o b p) = cursor p \/
  cursor (observer_callback o b p) = (cursor p + 10)%Z.
Proof.
  intro H. unfold observer_callback.
  destruct b; [|now left].
  destruct (closure_onTopKChange o) as [f|]; [|now left].
  right. apply H.
Qed.

Lemma notify_one_armed (n : Node) (b : bool)
    (os : list (IntersectionObserver P)) :
  Forall (fun o => handler_ok cursor (closure_onTopKChange o)) os ->
  forall k p,
    (forall j o, nth_error os j = Some o -> targets o = [] \/ j = k) ->
    cursor (fold_left (notify n b) os p) = cursor p \/
    cursor (fold_left (notify n b) os p) = (cursor p + 10)%Z.
Proof.
  induction 1 as [|a os Ha _ IH]; intros k p A; [now left|].
  simpl. destruct k as [|k].
  - rewrite notify_quiet.
    + unfold notify. destruct (existsb _ _); [|now left].
      now apply observer_callback_cursor.
    + intros j o H. destruct (A (S j) o H) as [T|E]; [exact T | discriminate].
  - assert (T : targets a = []).
    { destruct (A 0 a eq_refl) as [T|E]; [exact T | discriminate]. }
    unfold notify at 2 4. rewrite T. simpl.
    apply (IH k). intros j o H.
    destruct (A (S j) o H) as [T'|E]; [now left | right; lia].
Qed.





End SearchViewFacts.

(** ** Sentinel crossings *)




(** * Properties of the aggregator *)

(** C4: a response is applied only under the current generation.  When the
    view submits query [foo] and then query [bar] before [foo]'s fetch has
    resolved, [foo]'s response is dropped whenever it arrives, before or
    after [bar]'s, and the items shown are exactly [bar]'s results. *)
Theorem stale_query_response_is_discarded
    (Item : Type) (initialCursor : Z)
    (v : KnowledgeSearch.View (Aggregator.AggregatedResultSet Item))
    (foo bar : string) (page_foo page_bar : list Item) :
  KnowledgeSearch.onSearchQueryChange (KnowledgeSearch.props v)
    = Some (Aggregator.onSearchQueryChange_prop Item initialCursor) ->
  let v1 := KnowledgeSearch.handleSearch
              (KnowledgeSearch.handleInputChange foo v) in
  let token_foo := Aggregator.generation (KnowledgeSearch.parent v1) in
  let v2 := KnowledgeSearch.handleSearch
              (KnowledgeSearch.handleInputChange bar v1) in
  let token_bar := Aggregator.generation (KnowledgeSearch.parent v2) in
  let a := KnowledgeSearch.parent v2 in
  Aggregator.issued a
    = Aggregator.issued (KnowledgeSearch.parent v)
      ++ [Aggregator.mkFetch token_foo foo initialCursor;
          Aggregator.mkFetch token_bar bar initialCursor] /\
  Aggregator.fetchSucceeds token_foo page_foo a = a /\
  Aggregator.items
    (Aggregator.fetchSucceeds token_bar page_bar
       (Aggregator.fetchSucceeds token_foo page_foo a)) = page_bar /\
  Aggregator.items
    (Aggregator.fetchSucceeds token_foo page_foo
       (Aggregator.fetchSucceeds token_bar page_bar a)) = page_bar /\
  (forall tok page (s : Aggregator.AggregatedResultSet Item),
      tok <> Aggregator.generation s ->
      Aggregator.fetchSucceeds tok page s = s).
Proof.
  intro Hcb. cbv zeta.
  unfold KnowledgeSearch.handleSearch, KnowledgeSearch.handleInputChange.
  cbn [KnowledgeSearch.parent KnowledgeSearch.props
       KnowledgeSearch.searchInputValue].
  rewrite Hcb.
  cbn [KnowledgeSearch.call Aggregator.onSearchQueryChange_prop].
  set (a0 := KnowledgeSearch.parent v).
  set (a1 := Aggregator.submitQuery initialCursor foo a0).
  set (a2 := Aggregator.submitQuery initialCursor bar a1).
  assert (G1 : Aggregator.generation a1 = S (Aggregator.generation a0))
    by reflexivity.
  assert (G2 : Aggregator.generation a2 = S (Aggregator.generation a1))
    by reflexivity.
  assert (Stale : forall tok page (s : Aggregator.AggregatedResultSet Item),
             tok <> Aggregator.generation s ->
             Aggregator.fetchSucceeds tok page s = s).
  { intros tok page s Hne. unfold Aggregator.fetchSucceeds.
    apply Nat.eqb_neq in Hne. now rewrite Hne. }
  assert (Fresh : forall s : Aggregator.AggregatedResultSet Item,
             Aggregator.items s = [] ->
             Aggregator.items
               (Aggregator.fetchSucceeds (Aggregator.generation s) page_bar s)
             = page_bar).
  { intros s Hs. unfold Aggregator.fetchSucceeds.
    rewrite Nat.eqb_refl. cbn. now rewrite Hs. }
  assert (Drop : Aggregator.fetchSucceeds (Aggregator.generation a1) page_foo a2
                 = a2).
  { apply Stale. rewrite G2. lia. }
  split.
  { change (Aggregator.issued a2)
      with ((Aggregator.issued a0
             ++ [Aggregator.mkFetch (Aggregator.generation a1) foo initialCursor])
            ++ [Aggregator.mkFetch (Aggregator.generation a2) bar initialCursor]).
    now rewrite <- app_assoc. }
  split; [exact Drop|].
  split; [rewrite Drop; now apply Fresh|].
  split; [|exact Stale].
  rewrite Stale.
  - now apply Fresh.
  - unfold Aggregator.fetchSucceeds. rewrite Nat.eqb_refl. cbn.
    lia.
Qed.

Lemma stale_query_response_is_discarded_witness :
  let v2 := KnowledgeSearch.handleSearch
              (KnowledgeSearch.handleInputChange "bar"
                 (KnowledgeSearch.handleSearch
                    (KnowledgeSearch.handleInputChange "foo" fresh_search_view))) in
  Aggregator.fetchSucceeds 1 [11; 12] (KnowledgeSearch.parent v2)
    = KnowledgeSearch.parent v2 /\
  Aggregator.items
    (Aggregator.fetchSucceeds 2 [21; 22]
       (Aggregator.fetchSucceeds 1 [11; 12] (KnowledgeSearch.parent v2)))
    = [21; 22].
Proof.
  pose proof (stale_query_response_is_discarded
                nat 10%Z fresh_search_view "foo" "bar" [11; 12] [21; 22]
                eq_refl) as (_ & Dropped & Shown & _).
  split; [exact Dropped | exact Shown].
Defined.

(** C5: in a populated aggregator, the sentinel's trigger advances the cursor
    by 10, keeps the items and issues one fetch under the current generation;
    when that fetch succeeds its page is appended: the earlier items are the
    unchanged prefix of the new sequence, and 10 items followed by a page of
    10 make 20. *)
Theorem pagination_appends_to_items
    (Item : Type) (a : Aggregator.AggregatedResultSet Item)
    (o : KnowledgeSearch.IntersectionObserver (Aggregator.AggregatedResultSet Item))
    (page : list Item) :
  Aggregator.state_of a = Aggregator.Populated ->
  KnowledgeSearch.closure_onTopKChange o
    = Some (Aggregator.onTopKChange_prop Item) ->
  let a1 := KnowledgeSearch.observer_callback o true a in
  let a2 := Aggregator.fetchSucceeds (Aggregator.generation a1) page a1 in
  Aggregator.state_of a1 = Aggregator.Loading /\
  Aggregator.fetchCursor a1 = (Aggregator.fetchCursor a + 10)%Z /\
  Aggregator.items a1 = Aggregator.items a /\
  Aggregator.issued a1
    = Aggregator.issued a
      ++ [Aggregator.mkFetch (Aggregator.generation a1)
            (Aggregator.currentQuery a) (Aggregator.fetchCursor a + 10)%Z] /\
  Aggregator.items a2 = Aggregator.items a ++ page /\
  firstn (List.length (Aggregator.items a)) (Aggregator.items a2)
    = Aggregator.items a /\
  List.length (Aggregator.items a2)
    = List.length (Aggregator.items a) + List.length page /\
  Aggregator.state_of a2 = Aggregator.Populated /\
  (List.length (Aggregator.items a) = 10 -> List.length page = 10 ->
   List.length (Aggregator.items a2) = 20).
Proof.
  intros Hpop Ho. cbv zeta.
  unfold KnowledgeSearch.observer_callback. rewrite Ho.
  cbn [KnowledgeSearch.call Aggregator.onTopKChange_prop].
  unfold Aggregator.scrolledToSentinel. rewrite Hpop.
  unfold Aggregator.fetchSucceeds.
  cbn [Aggregator.generation Aggregator.items Aggregator.fetchCursor
       Aggregator.issued].
  rewrite Nat.eqb_refl.
  cbn [Aggregator.items].
  assert (Hne : Aggregator.items a <> []).
  { unfold Aggregator.state_of in Hpop.
    destruct (Aggregator.isLoading a); [discriminate|].
    destruct (Aggregator.items a); [|discriminate].
    destruct (Aggregator.hasSearched a); discriminate. }
  repeat split.
  - rewrite firstn_app, Nat.sub_diag, firstn_all. cbn. apply app_nil_r.
  - apply length_app.
  - unfold Aggregator.state_of. cbn.
    destruct (Aggregator.items a); [congruence | reflexivity].
  - intros L1 L2. rewrite length_app. lia.
Qed.

Lemma pagination_appends_to_items_witness :
  let a2 := Aggregator.fetchSucceeds 1 next_ten_results
              (KnowledgeSearch.observer_callback
                 sentinel_observer true populated_with_ten) in
  List.length (Aggregator.items a2) = 20 /\
  firstn 10 (Aggregator.items a2) = ten_results.
Proof.
  pose proof (pagination_appends_to_items
                nat populated_with_ten sentinel_observer next_ten_results
                eq_refl eq_refl) as (_ & _ & _ & _ & _ & Prefix & _ & _ & Twenty).
  split; [exact (Twenty eq_refl eq_refl) | exact Prefix].
Defined.

(** * Further properties of the highlight viewer *)

Lemma position_merge_idem (pos : Position.t) (upd : Position.partial) :
  Position.merge (Position.merge pos upd) upd = Position.merge pos upd.
Proof.
  unfold Position.merge. cbn.
  destruct (Position.p_boundingRect upd), (Position.p_rects upd),
    (Position.p_pageNumber upd); reflexivity.
Qed.

Lemma content_merge_idem (c upd : Content.t) :
  Content.merge (Content.merge c upd) upd = Content.merge c upd.
Proof.
  unfold Content.merge. cbn.
  destruct (Content.text upd), (Content.image upd); reflexivity.
Qed.

Lemma update_one_idem (hid : string) (pos : Position.partial)
    (cont : Content.t) (h : HighlightType.t) :
  update_one hid pos cont (update_one hid pos cont h) = update_one hid pos cont h.
Proof.
  unfold update_one.
  destruct (String.eqb (HighlightType.id h) hid) eqn:E; cbn; rewrite E; cbn.
  - now rewrite position_merge_idem, content_merge_idem.
  - reflexivity.
Qed.

(** X1: applying the same update twice is the same as applying it once. *)
Theorem updateHighlight_idempotent
    (hid : string) (pos : Position.partial) (cont : Content.t)
    (st : Highlighter) :
  updateHighlight hid pos cont (updateHighlight hid pos cont st)
  = updateHighlight hid pos cont st.
Proof.
  unfold updateHighlight. cbn. f_equal.
  rewrite map_map. apply map_ext. intro h. apply update_one_idem.
Qed.

(** X2: an update addressed to an id that no held highlight carries leaves
    the viewer's state exactly as it was. *)
Theorem updateHighlight_unknown_id
    (hid : string) (pos : Position.partial) (cont : Content.t)
    (st : Highlighter) :
  ~ In hid (map HighlightType.id (highlights st)) ->
  updateHighlight hid pos cont st = st.
Proof.
  intro H. unfold updateHighlight. destruct st as [hs pcs]. cbn in *. f_equal.
  rewrite <- (map_id hs) at 2. apply map_ext_in. intros h Hin.
  apply update_one_other. intro E. apply H. rewrite <- E.
  now apply in_map.
Qed.

Lemma updateHighlight_unknown_id_witness :
  updateHighlight "zzz" no_position_change screenshot_only held_two = held_two.
Proof.
  apply updateHighlight_unknown_id.
  cbn. intuition discriminate.
Defined.

Lemma update_one_comm (hid1 hid2 : string) (pos1 pos2 : Position.partial)
    (cont1 cont2 : Content.t) (h : HighlightType.t) :
  hid1 <> hid2 ->
  update_one hid1 pos1 cont1 (update_one hid2 pos2 cont2 h)
  = update_one hid2 pos2 cont2 (update_one hid1 pos1 cont1 h).
Proof.
  intro Hne. unfold update_one.
  destruct (String.eqb (HighlightType.id h) hid1) eqn:E1;
    destruct (String.eqb (HighlightType.id h) hid2) eqn:E2;
    cbn; rewrite ?E1, ?E2; cbn; try reflexivity.
  apply String.eqb_eq in E1, E2. congruence.
Qed.

(** X3: updates addressed to two different ids commute. *)
Theorem updateHighlight_commutes
    (hid1 hid2 : string) (pos1 pos2 : Position.partial)
    (cont1 cont2 : Content.t) (st : Highlighter) :
  hid1 <> hid2 ->
  updateHighlight hid1 pos1 cont1 (updateHighlight hid2 pos2 cont2 st)
  = updateHighlight hid2 pos2 cont2 (updateHighlight hid1 pos1 cont1 st).
Proof.
  intro Hne. unfold updateHighlight. cbn. f_equal.
  rewrite !map_map. apply map_ext. intro h. now apply update_one_comm.
Qed.

Lemma updateHighlight_commutes_witness :
  updateHighlight "a" no_position_change screenshot_only
    (updateHighlight "b" no_position_change screenshot_only held_two)
  = updateHighlight "b" no_position_change screenshot_only
      (updateHighlight "a" no_position_change screenshot_only held_two).
Proof.
  apply updateHighlight_commutes. discriminate.
Defined.

(** X4: a highlight added by the user goes to the front with the next
    generated id, the highlights held before follow unchanged, and the
    sidebar's list is not touched; an update addressed to the new id then
    changes the front item only, provided no earlier highlight has that
    id. *)
Theorem addHighlight_then_update
    (content : Content.t) (position : Position.t) (comment : option Comment.t)
    (st : Highlighter) (w : World)
    (pos : Position.partial) (cont : Content.t) :
  let fresh := fst (getNextId w) in
  let st1 := fst (addHighlight content position comment st w) in
  let added :=
    {| HighlightType.content := content;
       HighlightType.position := position;
       HighlightType.comment :=
         match comment with Some c => c | None => Comment.empty end;
       HighlightType.id := fresh |} in
  highlights st1 = added :: highlights st /\
  processedCitations st1 = processedCitations st /\
  snd (addHighlight content position comment st w) = snd (getNextId w) /\
  (~ In fresh (map HighlightType.id (highlights st)) ->
   highlights (updateHighlight fresh pos cont st1)
   = {| HighlightType.content := Content.merge content cont;
        HighlightType.position := Position.merge position pos;
        HighlightType.comment := HighlightType.comment added;
        HighlightType.id := fresh |} :: highlights st).
Proof.
  cbv zeta. unfold addHighlight, getNextId. cbn.
  repeat split.
  intro H. unfold update_one at 1. cbn. rewrite String.eqb_refl. cbn. f_equal.
  rewrite <- (map_id (highlights st)) at 2. apply map_ext_in. intros h Hin.
  apply update_one_other. intro E. apply H. rewrite <- E. now apply in_map.
Qed.

Lemma addHighlight_then_update_witness :
  map HighlightType.id
      (highlights
         (updateHighlight "8437592" no_position_change screenshot_only
            (fst (addHighlight screenshot_only
                    (HighlightType.position (highlight_of "a" "first"))
                    None held_two sample_world))))
  = ["8437592"; "a"; "b"] /\
  skipn 1
    (highlights
       (updateHighlight "8437592" no_position_change screenshot_only
          (fst (addHighlight screenshot_only
                  (HighlightType.position (highlight_of "a" "first"))
                  None held_two sample_world))))
  = highlights held_two.
Proof.
  pose proof (addHighlight_then_update screenshot_only
                (HighlightType.position (highlight_of "a" "first"))
                None held_two sample_world no_position_change screenshot_only)
    as (_ & _ & _ & U).
  cbv zeta in U.
  assert (F : ~ In (fst (getNextId sample_world))
                   (map HighlightType.id (highlights held_two))).
  { cbn. intuition discriminate. }
  specialize (U F).
  change (fst (getNextId sample_world)) with "8437592" in U.
  rewrite U. split; reflexivity.
Defined.

(** ** What every mapped highlight looks like *)

(** Every highlight of a mapped batch was produced by [processHighlight] from
    one of the batch's citations. *)
Lemma batch_highlights_origin (cs : list DocumentContent.t) :
  forall w h,
    In h (collect_highlights
            (filter has_highlight (fst (map_processHighlight cs w)))) ->
    exists c w0 w1, In c cs /\ processHighlight c w0 = (Some h, w1).
Proof.
  induction cs as [|c rest IH]; intros w h Hin; [contradiction|].
  simpl map_processHighlight in Hin.
  destruct (processHighlight c w) as [r w1] eqn:E.
  specialize (IH w1 h).
  destruct (map_processHighlight rest w1) as [tail w2].
  simpl in Hin, IH. unfold has_highlight at 1 in Hin. simpl in Hin.
  destruct r as [h0|]; simpl in Hin.
  - destruct Hin as [<- | Hin].
    + exists c, w, w1. split; [now left | exact E].
    + destruct (IH Hin) as (c' & w0 & w1' & Hc & Hp).
      exists c', w0, w1'. split; [now right | exact Hp].
  - destruct (IH Hin) as (c' & w0 & w1' & Hc & Hp).
    exists c', w0, w1'. split; [now right | exact Hp].
Qed.

Lemma highlights_origin (citations : option (list DocumentContent.t))
    (w : World) (h : HighlightType.t) :
  In h (highlights (fst (processCitationsWithHighlights citations w))) ->
  exists c w0 w1, processHighlight c w0 = (Some h, w1).
Proof.
  destruct citations as [[|c0 rest]|]; try contradiction.
  unfold processCitationsWithHighlights.
  pose proof (batch_highlights_origin (c0 :: rest) w h) as B.
  destruct (map_processHighlight (c0 :: rest) w) as [mapped w1].
  cbn [fst highlights] in *. intro Hin.
  destruct (B Hin) as (c & w0 & w1' & _ & Hp). now exists c, w0, w1'.
Qed.

Lemma processHighlight_built (c : DocumentContent.t) (w w' : World)
    (h : HighlightType.t) :
  processHighlight c w = (Some h, w') ->
  exists p0 p2 i, h = built c p0 p2 i.
Proof.
  intro H. destruct (valid c) eqn:V.
  - destruct (valid_inv c V) as (m & p0 & p1 & p2 & p3 & Hm & Hb).
    rewrite (processHighlight_accepted c w m p0 p1 p2 p3 Hm Hb) in H.
    injection H as <- _. now eexists _, _, _.
  - rewrite (processHighlight_rejected c w V) in H. discriminate H.
Qed.

(** X5: every highlight the mapper hands to the viewer is a text highlight
    with an empty comment: it is drawn with [Highlight], never with
    [AreaHighlight], and its popup is empty. *)
Theorem mapped_highlights_are_plain_text
    (citations : option (list DocumentContent.t)) (w : World) :
  Forall (fun h => isTextHighlight h = true /\
                   HighlightPopup (Some (HighlightType.comment h)) = None /\
                   exists t, Content.text (HighlightType.content h) = Some t)
         (highlights (fst (processCitationsWithHighlights citations w))).
Proof.
  apply Forall_forall. intros h Hin.
  destruct (highlights_origin citations w h Hin) as (c & w0 & w1 & Hp).
  destruct (processHighlight_built c w0 w1 h Hp) as (p0 & p2 & i & ->).
  repeat split. now eexists.
Qed.

Lemma or_number_truthy (a : option float) :
  JS.truthy_number (JS.or_number a 1%float) = true.
Proof.
  unfold JS.or_number. destruct a as [n|]; [|reflexivity].
  destruct (JS.truthy_number n) eqn:T; [exact T | reflexivity].
Qed.

(** X6: the page number of every mapped highlight is a truthy number (never
    [0], [-0] or [NaN]), and its bounding rectangle and every rectangle of
    [rects] carry that same page number. *)
Theorem mapped_page_numbers_are_truthy
    (citations : option (list DocumentContent.t)) (w : World) :
  Forall (fun h =>
            let page := Position.pageNumber (HighlightType.position h) in
            JS.truthy_number page = true /\
            Rect.pageNumber (Position.boundingRect (HighlightType.position h))
              = page /\
            Forall (fun r => Rect.pageNumber r = page)
                   (Position.rects (HighlightType.position h)))
         (highlights (fst (processCitationsWithHighlights citations w))).
Proof.
  apply Forall_forall. intros h Hin.
  destruct (highlights_origin citations w h Hin) as (c & w0 & w1 & Hp).
  destruct (processHighlight_built c w0 w1 h Hp) as (p0 & p2 & i & ->).
  cbn. split; [apply or_number_truthy|]. split; [reflexivity|].
  constructor; [reflexivity | constructor].
Qed.

(** ** Use of the random source and composition of batches *)

Lemma processHighlight_draws (c : DocumentContent.t) (w : World) :
  Math_random (snd (processHighlight c w)) = Math_random w /\
  draws (snd (processHighlight c w))
  = draws w + (if valid c && negb (has_source_id c) then 1 else 0).
Proof.
  destruct (valid c) eqn:V.
  - destruct (valid_inv c V) as (m & p0 & p1 & p2 & p3 & Hm & Hb).
    rewrite (processHighlight_accepted c w m p0 p1 p2 p3 Hm Hb).
    unfold has_source_id, sourceId_of. rewrite Hm. cbn.
    unfold or_getNextId, getNextId.
    destruct (Metadata._id m) as [s|]; [destruct (JS.truthy_string s)|];
      cbn; split; try reflexivity; lia.
  - rewrite (processHighlight_rejected c w V). cbn. split; [reflexivity | lia].
Qed.

Lemma map_processHighlight_draws (cs : list DocumentContent.t) :
  forall w,
    Math_random (snd (map_processHighlight cs w)) = Math_random w /\
    draws (snd (map_processHighlight cs w)) = draws w + needs_fresh_id cs.
Proof.
  induction cs as [|c rest IH]; intro w.
  - cbn. split; [reflexivity | unfold needs_fresh_id; cbn; lia].
  - simpl map_processHighlight.
    pose proof (processHighlight_draws c w) as [R D].
    destruct (processHighlight c w) as [r w1]. cbn [snd] in R, D.
    specialize (IH w1). destruct (map_processHighlight rest w1) as [tail w2].
    cbn [snd] in *. destruct IH as [R' D'].
    split; [congruence|]. rewrite D', D. unfold needs_fresh_id. cbn.
    destruct (valid c && negb (has_source_id c)); cbn; lia.
Qed.

(** X7: mapping a batch consumes exactly one random draw for each accepted
    citation that has no usable source id, none for any other citation, and
    leaves the random source itself as it was. *)
Theorem mapper_draws_once_per_missing_id
    (citations : option (list DocumentContent.t)) (w : World) :
  let w' := snd (processCitationsWithHighlights citations w) in
  Math_random w' = Math_random w /\
  draws w' = draws w + match citations with
                       | Some cs => needs_fresh_id cs
                       | None => 0
                       end.
Proof.
  cbv zeta. destruct citations as [[|c0 rest]|]; cbn [processCitationsWithHighlights snd].
  - split; [reflexivity | unfold needs_fresh_id; cbn; lia].
  - pose proof (map_processHighlight_draws (c0 :: rest) w) as M.
    now destruct (map_processHighlight (c0 :: rest) w) as [mapped w1].
  - split; [reflexivity | lia].
Qed.

Lemma map_processHighlight_app (cs1 cs2 : list DocumentContent.t) :
  forall w,
    map_processHighlight (cs1 ++ cs2) w =
    (fst (map_processHighlight cs1 w)
       ++ fst (map_processHighlight cs2 (snd (map_processHighlight cs1 w))),
     snd (map_processHighlight cs2 (snd (map_processHighlight cs1 w)))).
Proof.
  induction cs1 as [|c rest IH]; intro w.
  - cbn. now destruct (map_processHighlight cs2 w).
  - simpl. destruct (processHighlight c w) as [r w1].
    rewrite (IH w1).
    destruct (map_processHighlight rest w1) as [tail w2]. cbn.
    now destruct (map_processHighlight cs2 w2).
Qed.

Lemma collect_highlights_app (l1 l2 : list ProcessedCitation.t) :
  collect_highlights (l1 ++ l2) = collect_highlights l1 ++ collect_highlights l2.
Proof.
  induction l1 as [|pc l1 IH]; [reflexivity|].
  simpl. destruct (ProcessedCitation.highlight pc); simpl; now rewrite IH.
Qed.

(** The batch function without the emptiness test of its first branch. *)
Lemma processCitations_as_map (cs : list DocumentContent.t) (w : World) :
  processCitationsWithHighlights (Some cs) w =
  ({| highlights :=
        collect_highlights (filter has_highlight (fst (map_processHighlight cs w)));
      processedCitations := filter has_highlight (fst (map_processHighlight cs w)) |},
   snd (map_processHighlight cs w)).
Proof.
  destruct cs as [|c0 rest]; [reflexivity|].
  unfold processCitationsWithHighlights.
  now destruct (map_processHighlight (c0 :: rest) w).
Qed.

(** X8: mapping a batch that is the concatenation of two gives the first
    batch's highlights and sidebar entries followed by those of the second
    batch mapped in the world the first one left, and ends in that second
    world. *)
Theorem mapper_distributes_over_concatenation
    (cs1 cs2 : list DocumentContent.t) (w : World) :
  let r1 := processCitationsWithHighlights (Some cs1) w in
  let r2 := processCitationsWithHighlights (Some cs2) (snd r1) in
  let r := processCitationsWithHighlights (Some (cs1 ++ cs2)) w in
  highlights (fst r) = highlights (fst r1) ++ highlights (fst r2) /\
  processedCitations (fst r)
    = processedCitations (fst r1) ++ processedCitations (fst r2) /\
  snd r = snd r2.
Proof.
  cbv zeta. rewrite !processCitations_as_map. cbn [fst snd highlights processedCitations].
  rewrite map_processHighlight_app. cbn [fst snd].
  rewrite filter_app, collect_highlights_app. repeat split.
Qed.

(** X9: the viewer ends up without highlights exactly when no citation of
    the batch has a 4-point box, and then the sidebar list is empty too; an
    absent citation list clears both without logging or drawing anything. *)
Theorem no_highlights_iff_no_valid_box
    (cs : list DocumentContent.t) (w : World) :
  let st := fst (processCitationsWithHighlights (Some cs) w) in
  (highlights st = [] <-> Forall (fun c => valid c = false) cs) /\
  (highlights st = [] <-> processedCitations st = []) /\
  processCitationsWithHighlights None w
    = ({| highlights := []; processedCitations := [] |}, w).
Proof.
  cbv zeta. rewrite processCitations_as_map. cbn [fst highlights processedCitations].
  pose proof (map_processHighlight_spec cs w) as (S1 & S2 & _).
  pose proof (filter_has_highlight_citations _ S2) as F. rewrite S1 in F.
  pose proof (collect_highlights_length (fst (map_processHighlight cs w))) as L.
  assert (E : filter valid cs = [] <-> Forall (fun c => valid c = false) cs).
  { clear. induction cs as [|c cs IH]; simpl.
    - split; [constructor | reflexivity].
    - destruct (valid c) eqn:V.
      + split; [discriminate|]. intro H. inversion H; congruence.
      + rewrite IH. split; [now constructor | intro H; now inversion H]. }
  assert (P : filter has_highlight (fst (map_processHighlight cs w)) = []
              <-> filter valid cs = []).
  { rewrite <- F. split; intro H; [now rewrite H|].
    now apply map_eq_nil in H. }
  assert (H0 : collect_highlights
                 (filter has_highlight (fst (map_processHighlight cs w))) = []
               <-> filter has_highlight (fst (map_processHighlight cs w)) = []).
  { split; intro H.
    - apply length_zero_iff_nil. rewrite <- L, H. reflexivity.
    - now rewrite H. }
  split; [|split; [exact H0 | reflexivity]].
  rewrite H0, P. exact E.
Qed.

Lemma no_highlights_iff_no_valid_box_witness :
  highlights
    (fst (processCitationsWithHighlights
            (Some [citation_of (Some two_point_box) None (Some "c1") "one";
                   citation_of None None (Some "c2") "two"])
            sample_world)) = [].
Proof.
  apply (proj2 (proj1 (no_highlights_iff_no_valid_box
                         [citation_of (Some two_point_box) None (Some "c1") "one";
                          citation_of None None (Some "c2") "two"]
                         sample_world))).
  repeat constructor.
Defined.

(** ** Resizing an area highlight *)

(** X10: when the user resizes an area highlight and the held ids are
    pairwise distinct, that item gets the new bounding rectangle and the new
    screenshot, while its [rects], page number, text, comment and id stay as
    they were; every other item is untouched, and the item is still drawn as
    an area highlight exactly when the screenshot is a non-empty string. *)
Theorem area_resize_replaces_rectangle_and_image
    (st : Highlighter) (h : HighlightType.t) (i : nat)
    (scaled : Rect.t) (shot : string) :
  NoDup (map HighlightType.id (highlights st)) ->
  nth_error (highlights st) i = Some h ->
  let st' := onAreaHighlightChange h scaled shot st in
  (exists h',
      nth_error (highlights st') i = Some h' /\
      Position.boundingRect (HighlightType.position h') = scaled /\
      Position.rects (HighlightType.position h')
        = Position.rects (HighlightType.position h) /\
      Position.pageNumber (HighlightType.position h')
        = Position.pageNumber (HighlightType.position h) /\
      Content.image (HighlightType.content h') = Some shot /\
      Content.text (HighlightType.content h')
        = Content.text (HighlightType.content h) /\
      HighlightType.comment h' = HighlightType.comment h /\
      HighlightType.id h' = HighlightType.id h /\
      isTextHighlight h' = negb (JS.truthy_string shot)) /\
  (forall j, j <> i ->
      nth_error (highlights st') j = nth_error (highlights st) j) /\
  processedCitations st' = processedCitations st.
Proof.
  intros Hnd Hi. cbv zeta.
  unfold onAreaHighlightChange, updateHighlight. cbn [highlights processedCitations].
  split; [|split; [|reflexivity]].
  - eexists. split; [rewrite nth_error_map, Hi; reflexivity|].
    unfold update_one. rewrite String.eqb_refl. cbn.
    destruct (Content.text (HighlightType.content h)); repeat split.
  - intros j Hji. rewrite nth_error_map.
    destruct (nth_error (highlights st) j) as [g|] eqn:Hj; [|reflexivity].
    cbn. f_equal. apply update_one_other. intro Hg. apply Hji.
    apply (proj1 (NoDup_nth_error (map HighlightType.id (highlights st))) Hnd).
    + apply nth_error_Some. rewrite nth_error_map, Hj. discriminate.
    + rewrite !nth_error_map, Hi, Hj. cbn. congruence.
Qed.

Lemma area_resize_replaces_rectangle_and_image_witness :
  option_map (fun h => Position.rects (HighlightType.position h))
    (nth_error
       (highlights
          (onAreaHighlightChange
             (area_highlight "777" (sample_rect 100) "data:image/png;base64,AAAA")
             (sample_rect 200) "data:image/png;base64,BBBB" held_with_area)) 0)
  = Some [sample_rect 100] /\
  nth_error
    (highlights
       (onAreaHighlightChange
          (area_highlight "777" (sample_rect 100) "data:image/png;base64,AAAA")
          (sample_rect 200) "data:image/png;base64,BBBB" held_with_area)) 1
  = Some (highlight_of "a" "first").
Proof.
  assert (Hnd : NoDup (map HighlightType.id (highlights held_with_area))).
  { cbn. repeat constructor; cbn; intuition discriminate. }
  pose proof (area_resize_replaces_rectangle_and_image
                held_with_area
                (area_highlight "777" (sample_rect 100) "data:image/png;base64,AAAA")
                0 (sample_rect 200) "data:image/png;base64,BBBB" Hnd eq_refl)
    as ((h' & E & _ & R & _) & Others & _).
  cbv zeta in *. split.
  - rewrite E. cbn. now rewrite R.
  - rewrite (Others 1) by discriminate. reflexivity.
Defined.

(** ** Generated ids *)




(** * Further properties of the search view's helpers *)

Lemma lower_char_idem (c : ascii) : lower_char (lower_char c) = lower_char c.
Proof. destruct c as [[] [] [] [] [] [] [] []]; reflexivity. Qed.

Lemma toLowerCase_idem (s : string) : toLowerCase (toLowerCase s) = toLowerCase s.
Proof.
  induction s as [|c s IH]; [reflexivity|].
  cbn. now rewrite lower_char_idem, IH.
Qed.

Lemma or_string_lower_idem (extension : option string) :
  JS.or_string (option_map toLowerCase (option_map toLowerCase extension))
               EmptyString
  = JS.or_string (option_map toLowerCase extension) EmptyString.
Proof. destruct extension as [e|]; cbn; [now rewrite toLowerCase_idem | reflexivity]. Qed.

Lemma colored_label_has_icon (ext : string) :
  switch ext file_icon_colors "#1976d2" <> "#1976d2" ->
  switch ext file_icons "mdi:file-document-box" <> "mdi:file-document-box".
Proof.
  unfold file_icon_colors. cbn [switch includes existsb].
  repeat match goal with
         | |- context [String.eqb ext ?l] =>
             let E := fresh "E" in
             destruct (String.eqb ext l) eqn:E;
             [apply String.eqb_eq in E; subst ext; intros _; cbn; discriminate|]
         end.
  cbn. intro H. now contradiction H.
Qed.

(** X12: an extension that gets a colour of its own also gets an icon of its
    own, and both the icon and the colour depend only on the lower-cased
    extension. *)
Theorem colored_extensions_have_icons (extension : option string) :
  (getFileIconColor extension <> "#1976d2" ->
   getFileIcon extension <> "mdi:file-document-box") /\
  getFileIcon (option_map toLowerCase extension) = getFileIcon extension /\
  getFileIconColor (option_map toLowerCase extension)
    = getFileIconColor extension.
Proof.
  unfold getFileIcon, getFileIconColor. cbv zeta.
  rewrite or_string_lower_idem.
  split; [apply colored_label_has_icon | split; reflexivity].
Qed.

Lemma colored_extensions_have_icons_witness :
  getFileIcon (Some "DOCX") <> "mdi:file-document-box".
Proof.
  apply (proj1 (colored_extensions_have_icons (Some "DOCX"))).
  cbn. discriminate.
Defined.

Lemma substring_0_length (n : nat) :
  forall s, String.length (String.substring 0 n s) = Nat.min n (String.length s).
Proof.
  induction n as [|n IH]; intro s.
  - now destruct s.
  - destruct s as [|c s]; [reflexivity|]. cbn. now rewrite IH.
Qed.

Lemma append_length (s1 s2 : string) :
  String.length (String.append s1 s2) = String.length s1 + String.length s2.
Proof. induction s1 as [|c s1 IH]; [reflexivity|]. cbn. now rewrite IH. Qed.

Lemma substring_0_append (n : nat) :
  forall s t, n <= String.length s ->
              String.substring 0 n (String.append s t) = String.substring 0 n s.
Proof.
  induction n as [|n IH]; intros s t H.
  - destruct s; cbn; [now destruct t | reflexivity].
  - destruct s as [|c s]; cbn in *; [lia|]. rewrite IH by lia. reflexivity.
Qed.

Lemma substring_0_twice (n : nat) :
  forall s, String.substring 0 n (String.substring 0 n s) = String.substring 0 n s.
Proof.
  induction n as [|n IH]; intro s.
  - now destruct s.
  - destruct s as [|c s]; [reflexivity|]. cbn. now rewrite IH.
Qed.

Lemma substring_0_all (n : nat) :
  forall s, String.length s <= n -> String.substring 0 n s = s.
Proof.
  induction n as [|n IH]; intros s H.
  - destruct s; [reflexivity | cbn in H; lia].
  - destruct s as [|c s]; [reflexivity|]. cbn in *. rewrite IH by lia. reflexivity.
Qed.

(** X13: a content preview is never longer than [maxLength + 3]; content of
    at most [maxLength] code units (and absent content, as the empty string)
    is returned as it is; longer content is cut to its first [maxLength]
    code units followed by three dots; in every case the preview and the
    content agree on their first [maxLength] code units. *)
Theorem content_preview_is_bounded (content : option string) (maxLength : nat) :
  let c := match content with Some s => s | None => EmptyString end in
  let preview := getContentPreview content maxLength in
  String.length preview <= maxLength + 3 /\
  (String.length c <= maxLength -> preview = c) /\
  (maxLength < String.length c ->
   preview = String.append (String.substring 0 maxLength c) "..." /\
   String.length preview = maxLength + 3) /\
  String.substring 0 maxLength preview = String.substring 0 maxLength c.
Proof.
  cbv zeta. unfold getContentPreview.
  destruct content as [c|]; [|cbn; repeat split; try lia; now destruct maxLength].
  destruct c as [|a c]; [cbn; repeat split; try lia; now destruct maxLength|].
  cbn [JS.truthy_string negb].
  destruct (maxLength <? String.length (String a c))%nat eqn:E.
  - apply Nat.ltb_lt in E.
    assert (L : String.length (String.substring 0 maxLength (String a c)) = maxLength).
    { rewrite substring_0_length. lia. }
    repeat split.
    + rewrite append_length, L. cbn. lia.
    + lia.
    + rewrite append_length, L. reflexivity.
    + rewrite substring_0_append by lia. apply substring_0_twice.
  - apply Nat.ltb_ge in E. repeat split; try lia.
Qed.

Lemma content_preview_is_bounded_witness :
  getContentPreview (Some "knowledge base") 9 = "knowledge...".
Proof.
  refine (proj1 (proj1 (proj2 (proj2 (content_preview_is_bounded
                                        (Some "knowledge base") 9))) _)).
  cbn. lia.
Defined.

Lemma is_string_true (a : option string) (literal : string) :
  is_string a literal = true <-> a = Some literal.
Proof.
  destruct a as [s|]; cbn.
  - rewrite String.eqb_eq. split; congruence.
  - split; discriminate.
Qed.

Lemma source_switch_not_gmail (c : string) (d : string * string) :
  fst d = "mdi:database" ->
  fst (switch c source_icons d) <> "mdi:gmail" /\
  (fst (switch c source_icons d) = "mdi:database" -> switch c source_icons d = d).
Proof.
  intro Hd. unfold source_icons. cbn [switch includes existsb].
  repeat match goal with
         | |- context [String.eqb c ?l] =>
             destruct (String.eqb c l); [cbn; split; discriminate|]
         end.
  cbn. split; [rewrite Hd; discriminate | reflexivity].
Qed.

(** X14: a result gets the Gmail icon exactly when it has metadata and is a
    [MAIL] record or comes from the [GMAIL] connector, whatever its connector
    otherwise says; whenever the generic database icon is chosen its colour
    is the theme's secondary text colour. *)
Theorem gmail_icon_iff_mail (result : SearchResult.t) (text_secondary : string) :
  (fst (getSourceIcon result text_secondary) = "mdi:gmail" <->
   exists m, SearchResult.metadata result = Some m /\
             (SearchMetadata.recordType m = Some "MAIL" \/
              SearchMetadata.connector m = Some "GMAIL")) /\
  (fst (getSourceIcon result text_secondary) = "mdi:database" ->
   snd (getSourceIcon result text_secondary) = text_secondary).
Proof.
  unfold getSourceIcon.
  destruct (SearchResult.metadata result) as [m|].
  - destruct (is_string (SearchMetadata.recordType m) "MAIL"
              || is_string (SearchMetadata.connector m) "GMAIL") eqn:G.
    + split; [|cbn; discriminate]. split; [|reflexivity]. intros _.
      exists m. split; [reflexivity|].
      apply orb_true_iff in G. now rewrite !is_string_true in G.
    + assert (N : ~ (SearchMetadata.recordType m = Some "MAIL" \/
                     SearchMetadata.connector m = Some "GMAIL")).
      { rewrite <- !is_string_true, <- orb_true_iff, G. discriminate. }
      destruct (SearchMetadata.connector m) as [c|] eqn:C.
      * destruct (source_switch_not_gmail c ("mdi:database", text_secondary)
                    eq_refl) as [NG DB].
        split.
        -- split; [intro H; contradiction (NG H)|].
           intros (m' & E & H). injection E as <-. rewrite C in H.
           contradiction (N H).
        -- intro H. now rewrite (DB H).
      * cbn. split; [|reflexivity]. split; [discriminate|].
        intros (m' & E & H). injection E as <-. rewrite C in H.
        contradiction (N H).
  - cbn. split; [|reflexivity]. split; [discriminate|].
    intros (m & E & _). discriminate E.
Qed.

Lemma gmail_icon_iff_mail_witness :
  fst (getSourceIcon
         (search_result (Some "eml") (Some "MAIL") (Some "SLACK") None None)
         "#637381") = "mdi:gmail".
Proof.
  apply (proj2 (proj1 (gmail_icon_iff_mail
                         (search_result (Some "eml") (Some "MAIL") (Some "SLACK")
                                        None None) "#637381"))).
  eexists. split; [reflexivity | now left].
Defined.

Lemma or_string_lower (e : option string) :
  JS.or_string (option_map toLowerCase e) EmptyString
  = toLowerCase (JS.or_string e EmptyString).
Proof. destruct e as [[|c s]|]; reflexivity. Qed.

(** X15: whenever a row shows the "View Citations" button, clicking it makes
    [handleViewCitations] reach the [onViewCitations] call; every call the
    handler makes carries the record's id and exactly one of the two flags
    [isPdf], [isExcel]; and for an extension already in lower case the button
    is shown exactly when the handler would make the call. *)
Theorem viewable_rows_reach_onViewCitations
    (record : SearchResult.t) (m : SearchMetadata.t) :
  SearchResult.metadata record = Some m ->
  (isViewable m = true -> viewCitations_call record <> None) /\
  (forall recordId isPdf isExcel,
      viewCitations_call record = Some (recordId, isPdf, isExcel) ->
      recordId = recordId_of record /\ isPdf = negb isExcel) /\
  (toLowerCase (extension_of record) = extension_of record ->
   viewCitations_call record <> None -> isViewable m = true).
Proof.
  intro Hm.
  assert (Ext : extension_of record
                = JS.or_string (SearchMetadata.extension m) EmptyString).
  { unfold extension_of. now rewrite Hm. }
  unfold viewCitations_call, isViewable. cbv zeta.
  rewrite or_string_lower, <- Ext.
  set (x := toLowerCase (extension_of record)).
  assert (Excl : String.eqb x "pdf" = true ->
                 includes ["xlsx"; "xls"; "csv"] x = false).
  { intro H. apply String.eqb_eq in H. now rewrite H. }
  split; [|split].
  - intro V. apply orb_true_iff in V as [V|V].
    + apply is_string_true in V.
      assert (X : x = "pdf").
      { unfold x. rewrite Ext, V. reflexivity. }
      rewrite X. cbn. discriminate.
    + rewrite V, orb_true_r. discriminate.
  - intros recordId isPdf isExcel H.
    destruct (String.eqb x "pdf") eqn:A.
    + rewrite (Excl eq_refl) in H. cbn in H.
      injection H; intros; subst; split; reflexivity.
    + destruct (includes ["xlsx"; "xls"; "csv"] x) eqn:B; cbn in H;
        [|discriminate].
      injection H; intros; subst; split; reflexivity.
  - intros Low H.
    destruct (String.eqb x "pdf") eqn:A.
    + apply String.eqb_eq in A. subst x. rewrite Low in A.
      assert (E : SearchMetadata.extension m = Some "pdf").
      { rewrite Ext in A. destruct (SearchMetadata.extension m) as [[|c s]|];
          cbn in A; try discriminate. now rewrite A. }
      rewrite E. reflexivity.
    + destruct (includes ["xlsx"; "xls"; "csv"] x);
        [apply orb_true_r | now contradiction H].
Qed.

Lemma viewable_rows_reach_onViewCitations_witness :
  viewCitations_call (search_result (Some "XLSX") None None None None) <> None.
Proof.
  exact (proj1 (viewable_rows_reach_onViewCitations
                  (search_result (Some "XLSX") None None None None) _ eq_refl)
               eq_refl).
Defined.

Lemma length_or_0_nonneg (l : option (list string)) : (0 <= length_or_0 l)%Z.
Proof. destruct l; cbn; lia. Qed.

Lemma shown_chips_length (m : SearchMetadata.t) :
  Z.of_nat (List.length (shown_chips m))
  = (Z.min 3 (length_or_0 (SearchMetadata.topics m))
     + Z.min 2 (length_or_0 (SearchMetadata.departments m)))%Z.
Proof.
  unfold shown_chips. rewrite length_app.
  destruct (SearchMetadata.topics m) as [ts|],
           (SearchMetadata.departments m) as [ds|];
    cbn [length_or_0]; rewrite ?length_firstn; cbn [List.length]; lia.
Qed.

(** X16: the number on a row's ["+N more"] chip never exceeds the number of
    topics and departments the row leaves out, and equals it exactly when the
    row has at least 3 topics and at least 2 departments; whenever the chip
    is rendered something is indeed left out. *)
Theorem more_chip_never_overcounts (m : SearchMetadata.t) :
  let hidden :=
    (length_or_0 (SearchMetadata.topics m)
     + length_or_0 (SearchMetadata.departments m)
     - Z.of_nat (List.length (shown_chips m)))%Z in
  (more_chip_count m <= hidden)%Z /\
  (more_chip_count m = hidden <->
   (3 <= length_or_0 (SearchMetadata.topics m))%Z /\
   (2 <= length_or_0 (SearchMetadata.departments m))%Z) /\
  (more_chip_shown m = true -> (0 < hidden)%Z).
Proof.
  cbv zeta. rewrite shown_chips_length. unfold more_chip_count, more_chip_shown.
  pose proof (length_or_0_nonneg (SearchMetadata.topics m)).
  pose proof (length_or_0_nonneg (SearchMetadata.departments m)).
  repeat split; lia.
Qed.

Lemma more_chip_never_overcounts_witness :
  more_chip_count (mkSearchMetadata_sample ["a"; "b"; "c"; "d"; "e"] []) = 0%Z /\
  (0 < 5 + 0 - Z.of_nat (List.length
                           (shown_chips
                              (mkSearchMetadata_sample ["a"; "b"; "c"; "d"; "e"] []))))%Z.
Proof.
  split; [reflexivity|].
  exact (proj2 (proj2 (more_chip_never_overcounts
                         (mkSearchMetadata_sample ["a"; "b"; "c"; "d"; "e"] [])))
               eq_refl).
Defined.

Lemma record_type_of_head (r : SearchResult.t) :
  let typed t :=
    match SearchResult.metadata r with
    | Some m => is_string (SearchMetadata.recordType m) t
    | None => false
    end in
  (if typed "FILE" then 1 else 0) + (if typed "FAQ" then 1 else 0)
  + (if typed "MAIL" then 1 else 0) <= 1 /\
  ((if typed "FILE" then 1 else 0) + (if typed "FAQ" then 1 else 0)
   + (if typed "MAIL" then 1 else 0) = 1 <->
   exists m, SearchResult.metadata r = Some m /\
             (SearchMetadata.recordType m = Some "FILE" \/
              SearchMetadata.recordType m = Some "FAQ" \/
              SearchMetadata.recordType m = Some "MAIL")).
Proof.
  cbv zeta. destruct (SearchResult.metadata r) as [m|].
  - destruct (SearchMetadata.recordType m) as [s|] eqn:R; cbn [is_string].
    + destruct (String.eqb s "FILE") eqn:A;
        [apply String.eqb_eq in A; subst s; cbn; split; [lia|];
         split; [intros _; exists m; rewrite R; auto | intros _; reflexivity]|].
      destruct (String.eqb s "FAQ") eqn:B;
        [apply String.eqb_eq in B; subst s; cbn; split; [lia|];
         split; [intros _; exists m; rewrite R; auto | intros _; reflexivity]|].
      destruct (String.eqb s "MAIL") eqn:C;
        [apply String.eqb_eq in C; subst s; cbn; split; [lia|];
         split; [intros _; exists m; rewrite R; auto | intros _; reflexivity]|].
      cbn. split; [lia|]. split; [discriminate|].
      intros (m' & E & T). injection E as <-. rewrite R in T.
      apply String.eqb_neq in A, B, C.
      destruct T as [T|[T|T]]; injection T as T; congruence.
    + cbn. split; [lia|]. split; [discriminate|].
      intros (m' & E & T). injection E as <-. rewrite R in T.
      destruct T as [T|[T|T]]; discriminate T.
  - cbn. split; [lia|]. split; [discriminate|].
    intros (m' & E & _). discriminate E.
Qed.

Lemma getRecordTypeCount_cons (r : SearchResult.t) (rs : list SearchResult.t)
    (type : string) :
  getRecordTypeCount (r :: rs) type
  = (if match SearchResult.metadata r with
        | Some m => is_string (SearchMetadata.recordType m) type
        | None => false
        end then 1 else 0)
    + getRecordTypeCount rs type.
Proof.
  unfold getRecordTypeCount. cbn [filter].
  now destruct (match SearchResult.metadata r with
                | Some m => is_string (SearchMetadata.recordType m) type
                | None => false
                end).
Qed.

(** X17: the three tab counts (documents, FAQs, e-mails) never add up to
    more than the number of results, and add up to exactly that number when
    and only when every result has metadata with record type [FILE], [FAQ] or
    [MAIL]. *)
Theorem tab_counts_partition_results (searchResults : list SearchResult.t) :
  let documentCount := getRecordTypeCount searchResults "FILE" in
  let faqCount := getRecordTypeCount searchResults "FAQ" in
  let emailCount := getRecordTypeCount searchResults "MAIL" in
  documentCount + faqCount + emailCount <= List.length searchResults /\
  (documentCount + faqCount + emailCount = List.length searchResults <->
   Forall (fun r => exists m,
               SearchResult.metadata r = Some m /\
               (SearchMetadata.recordType m = Some "FILE" \/
                SearchMetadata.recordType m = Some "FAQ" \/
                SearchMetadata.recordType m = Some "MAIL"))
          searchResults).
Proof.
  cbv zeta.
  induction searchResults as [|r rs [IHle IHeq]].
  - cbn. split; [lia|]. split; [constructor | reflexivity].
  - rewrite !getRecordTypeCount_cons.
    pose proof (record_type_of_head r) as [Hle Heq]. cbv zeta in Hle, Heq.
    cbn [List.length]. split; [lia|]. split.
    + intro H. constructor; [apply Heq; lia | apply IHeq; lia].
    + intro H. inversion H as [|? ? Hr Hrs]; subst.
      apply Heq in Hr. apply IHeq in Hrs. lia.
Qed.

Lemma tab_counts_partition_results_witness :
  getRecordTypeCount
    [search_result None (Some "FILE") None None None;
     search_result None (Some "MAIL") None None None] "FILE"
  + getRecordTypeCount
      [search_result None (Some "FILE") None None None;
       search_result None (Some "MAIL") None None None] "FAQ"
  + getRecordTypeCount
      [search_result None (Some "FILE") None None None;
       search_result None (Some "MAIL") None None None] "MAIL"
  = 2.
Proof.
  apply (proj2 (proj2 (tab_counts_partition_results
                         [search_result None (Some "FILE") None None None;
                          search_result None (Some "MAIL") None None None]))).
  repeat constructor; eexists; (split; [reflexivity|]); auto.
Defined.

(** X18: whatever the flags, at least one of the four display blocks is
    rendered; the result list appears alone and so does the "no results"
    block; the only two blocks that can appear together are the initial
    prompt and the loading skeleton, exactly when a load runs before any
    search with no result held. *)
Theorem some_display_block_is_rendered
    (hasSearched : bool) (results : nat) (loading : bool) :
  let initial := showInitialState hasSearched results loading in
  let empty := showNoResultsState hasSearched results loading in
  let list := showResultsState hasSearched results loading in
  let skeleton := showLoadingState hasSearched results loading in
  initial || empty || list || skeleton = true /\
  (list = true -> initial = false /\ empty = false /\ skeleton = false) /\
  (empty = true -> initial = false /\ list = false /\ skeleton = false) /\
  (initial && skeleton = true <->
   hasSearched = false /\ results = 0 /\ loading = true).
Proof.
  cbv zeta.
  unfold showInitialState, showNoResultsState, showLoadingState, showResultsState.
  destruct results as [|n]; destruct hasSearched, loading; cbn;
    repeat split; try discriminate; try reflexivity;
    try (intros (? & ? & ?); discriminate);
    try (intro; discriminate).
Qed.

Lemma some_display_block_is_rendered_witness :
  showInitialState false 0 true = true /\ showLoadingState false 0 true = true.
Proof.
  apply andb_true_iff.
  apply (proj2 (proj2 (proj2 (proj2 (some_display_block_is_rendered false 0 true))))).
  repeat split.
Defined.

(** * Further properties of the search view *)

Section SearchViewMoreFacts.

Import KnowledgeSearch.

Variable P : Type.

Lemma lastResultElementRef_user_fields (pr : Props P) (node : option Node)
    (v : View P) :
  searchInputValue (lastResultElementRef pr node v) = searchInputValue v /\
  searchQuery (lastResultElementRef pr node v) = searchQuery v /\
  hasSearched (lastResultElementRef pr node v) = hasSearched v.
Proof. unfold lastResultElementRef. destruct (loading pr); repeat split. Qed.

Lemma render_user_fields (pr : Props P) (node : option Node) (v : View P) :
  searchInputValue (render pr node v) = searchInputValue v /\
  searchQuery (render pr node v) = searchQuery v /\
  hasSearched (render pr node v) = hasSearched v.
Proof.
  unfold render.
  destruct (same_ref_callback (props v) pr && same_node (attached v) node);
    cbn; [repeat split|].
  destruct node as [n|], (attached v) as [a|];
    repeat match goal with
           | |- context [lastResultElementRef ?q ?x ?u] =>
               destruct (lastResultElementRef_user_fields q x u) as (-> & -> & ->)
           end; repeat split.
Qed.

Lemma step_hasSearched (e : event P) (v : View P) :
  hasSearched (step e v) = hasSearched v || is_search e.
Proof.
  destruct e as [pr node | n b | value | |]; cbn.
  - rewrite (proj2 (proj2 (render_user_fields pr node v))). now rewrite orb_false_r.
  - now rewrite orb_false_r.
  - now rewrite orb_false_r.
  - now rewrite orb_true_r.
  - now rewrite orb_false_r.
Qed.

Lemma run_hasSearched (evs : list (event P)) :
  forall v, hasSearched (run evs v) = hasSearched v || existsb (@is_search P) evs.
Proof.
  induction evs as [|e evs IH]; intro v; cbn; [now rewrite orb_false_r|].
  unfold run in IH. rewrite IH, step_hasSearched. now rewrite orb_assoc.
Qed.

Lemma mount_user_fields (p : P) (pr : Props P) (node : option Node) :
  searchInputValue (mount p pr node) = EmptyString /\
  searchQuery (mount p pr node) = EmptyString /\
  hasSearched (mount p pr node) = false.
Proof.
  unfold mount. cbn. destruct node as [n|]; [|repeat split].
  match goal with
  | |- context [lastResultElementRef ?q ?x ?u] =>
      destruct (lastResultElementRef_user_fields q x u) as (-> & -> & ->)
  end. repeat split.
Qed.

End SearchViewMoreFacts.

(** X19: a mounted search view has [hasSearched] set exactly when a search
    was submitted at some point of its history; neither clearing the search
    nor any render or scroll resets it, so once a search was submitted the
    initial prompt is never rendered again. *)
Theorem hasSearched_iff_a_search_was_submitted
    (P : Type) (p : P) (pr : KnowledgeSearch.Props P)
    (node : option KnowledgeSearch.Node)
    (evs : list (KnowledgeSearch.event P)) :
  let v := KnowledgeSearch.run evs (KnowledgeSearch.mount p pr node) in
  KnowledgeSearch.hasSearched v = existsb (@is_search P) evs /\
  (forall results loading,
      showInitialState (KnowledgeSearch.hasSearched v) results loading = true ->
      Forall (fun e => is_search e = false) evs).
Proof.
  cbv zeta.
  assert (H : KnowledgeSearch.hasSearched
                (KnowledgeSearch.run evs (KnowledgeSearch.mount p pr node))
              = existsb (@is_search P) evs).
  { rewrite run_hasSearched.
    now rewrite (proj2 (proj2 (mount_user_fields P p pr node))). }
  split; [exact H|].
  intros results loading S. unfold showInitialState in S. rewrite H in S.
  apply andb_true_iff in S as [S _]. apply negb_true_iff in S.
  apply Forall_forall. intros e Hin.
  destruct (is_search e) eqn:E; [|reflexivity].
  assert (X : existsb (@is_search P) evs = true).
  { apply existsb_exists. now exists e. }
  congruence.
Qed.

Lemma hasSearched_iff_a_search_was_submitted_witness :
  Forall (fun e => is_search e = false)
         [KnowledgeSearch.Input "foo"; @KnowledgeSearch.Clear Z].
Proof.
  apply (proj2 (hasSearched_iff_a_search_was_submitted
                  Z 10%Z (search_props false) None
                  [KnowledgeSearch.Input "foo"; KnowledgeSearch.Clear])
               0 false).
  reflexivity.
Defined.

(** X20: whenever an event changes [searchQuery], which is when React re-runs
    the synchronising effect, the effect finds [searchQuery] and
    [searchInputValue] equal and changes nothing; the same holds right after
    the mount. *)
Theorem sync_effect_never_changes_the_input
    (P : Type) (e : KnowledgeSearch.event P) (v : KnowledgeSearch.View P) :
  (KnowledgeSearch.searchQuery (KnowledgeSearch.step e v)
   <> KnowledgeSearch.searchQuery v ->
   syncSearchInput (KnowledgeSearch.step e v) = KnowledgeSearch.step e v) /\
  (forall (p : P) (pr : KnowledgeSearch.Props P)
          (node : option KnowledgeSearch.Node),
      syncSearchInput (KnowledgeSearch.mount p pr node)
      = KnowledgeSearch.mount p pr node).
Proof.
  split.
  - intro H. unfold syncSearchInput.
    destruct e as [pr node | n b | value | |]; cbn in *.
    + now rewrite (proj1 (proj2 (render_user_fields P pr node v))) in H.
    + now contradiction H.
    + now contradiction H.
    + now rewrite String.eqb_refl.
    + reflexivity.
  - intros p pr node. unfold syncSearchInput.
    destruct (mount_user_fields P p pr node) as (-> & -> & _). reflexivity.
Qed.

Lemma sync_effect_never_changes_the_input_witness :
  syncSearchInput
    (KnowledgeSearch.step KnowledgeSearch.Search
       (KnowledgeSearch.step (KnowledgeSearch.Input "foo")
          (KnowledgeSearch.mount 10%Z (search_props false) None)))
  = KnowledgeSearch.step KnowledgeSearch.Search
      (KnowledgeSearch.step (KnowledgeSearch.Input "foo")
         (KnowledgeSearch.mount 10%Z (search_props false) None)).
Proof.
  apply (proj1 (sync_effect_never_changes_the_input
                  Z KnowledgeSearch.Search
                  (KnowledgeSearch.step (KnowledgeSearch.Input "foo")
                     (KnowledgeSearch.mount 10%Z (search_props false) None)))).
  cbn. discriminate.
Defined.

(** X21: in every state the search view reaches from its mount, an observer
    that still observes anything is [observer.current], the view is not
    loading, and what it observes is exactly the element of the current last
    row; every observer replaced earlier has been disconnected. *)
Theorem no_stale_observer_is_left_armed
    (P : Type) (p : P) (pr : KnowledgeSearch.Props P)
    (node : option KnowledgeSearch.Node)
    (evs : list (KnowledgeSearch.event P)) :
  let v := KnowledgeSearch.run evs (KnowledgeSearch.mount p pr node) in
  forall j o,
    nth_error (KnowledgeSearch.observers v) j = Some o ->
    KnowledgeSearch.targets o <> [] ->
    KnowledgeSearch.observer_current v = Some j /\
    KnowledgeSearch.loading (KnowledgeSearch.props v) = false /\
    exists n, KnowledgeSearch.attached v = Some n /\
              KnowledgeSearch.targets o = [n].
Proof.
  intros v j o Hj Ht.
  assert (I : armed_only_when_idle v).
  { apply run_armed_only_when_idle, mount_armed_only_when_idle. }
  unfold armed_only_when_idle in I.
  destruct (KnowledgeSearch.loading (KnowledgeSearch.props v)).
  - contradiction (Ht (I j o Hj)).
  - destruct (KnowledgeSearch.attached v) as [n|].
    + destruct (I j o Hj) as [T | [C T]]; [contradiction (Ht T)|].
      repeat split; [exact C|]. now exists n.
    + contradiction (Ht (I j o Hj)).
Qed.

Lemma no_stale_observer_is_left_armed_witness :
  let v := KnowledgeSearch.run
             [KnowledgeSearch.Render (search_props true) (Some 7);
              KnowledgeSearch.Render (search_props false) (Some 9)]
             (KnowledgeSearch.mount 10%Z (search_props false) (Some 7)) in
  KnowledgeSearch.observer_current v = Some 2 /\
  KnowledgeSearch.attached v = Some 9.
Proof.
  cbv zeta.
  destruct (no_stale_observer_is_left_armed
              Z 10%Z (search_props false) (Some 7)
              [KnowledgeSearch.Render (search_props true) (Some 7);
               KnowledgeSearch.Render (search_props false) (Some 9)]
              2 {| KnowledgeSearch.closure_onTopKChange := Some setTopK;
                   KnowledgeSearch.targets := [9] |}
              eq_refl ltac:(discriminate))
    as (C & _ & n & A & T).
  split; [exact C|]. rewrite A. now injection T as <-.
Defined.

(** X22: when a load ends, that is, when a view rendered with [loading] set
    is rendered again with [loading] cleared, a last row present and an
    [onTopKChange] handler that applies the updater it is handed, the next
    intersection of that row advances the parent's cursor by exactly 10. *)
Theorem sentinel_is_rearmed_when_the_load_ends
    (P : Type) (cursor : P -> Z) (p0 : P)
    (pr0 : KnowledgeSearch.Props P) (node0 : option KnowledgeSearch.Node)
    (evs : list (KnowledgeSearch.event P))
    (pr : KnowledgeSearch.Props P) (f : KnowledgeSearch.Callback P (Z -> Z))
    (n : KnowledgeSearch.Node) :
  let v := KnowledgeSearch.run evs (KnowledgeSearch.mount p0 pr0 node0) in
  KnowledgeSearch.loading (KnowledgeSearch.props v) = true ->
  KnowledgeSearch.loading pr = false ->
  KnowledgeSearch.onTopKChange pr = Some f ->
  applies_updater cursor f ->
  cursor (KnowledgeSearch.parent
            (KnowledgeSearch.step (KnowledgeSearch.Intersect n true)
               (KnowledgeSearch.step (KnowledgeSearch.Render pr (Some n)) v)))
  = (cursor (KnowledgeSearch.parent v) + 10)%Z.
Proof.
  intros v Lv Lpr Hf Hup.
  assert (I : armed_only_when_idle v).
  { apply run_armed_only_when_idle, mount_armed_only_when_idle. }
  unfold armed_only_when_idle in I. rewrite Lv in I.
  cbn [KnowledgeSearch.step]. unfold KnowledgeSearch.render.
  unfold KnowledgeSearch.same_ref_callback at 1. rewrite Lv, Lpr.
  cbn [Bool.eqb andb].
  assert (V1 : match KnowledgeSearch.attached v with
               | Some _ => KnowledgeSearch.lastResultElementRef
                             (KnowledgeSearch.props v) None v
               | None => v
               end = v).
  { destruct (KnowledgeSearch.attached v); [|reflexivity].
    now apply lastResultElementRef_loading. }
  rewrite V1.
  destruct (lastResultElementRef_idle P pr (Some n) v Lpr) as [Os _].
  destruct (lastResultElementRef_frame P pr (Some n) v) as (Par & _ & _).
  unfold KnowledgeSearch.deliver. cbn. rewrite Os, Par.
  rewrite fold_left_app. cbn [fold_left].
  rewrite notify_quiet.
  - unfold KnowledgeSearch.notify. cbn. rewrite Nat.eqb_refl. cbn.
    rewrite Hf. apply Hup.
  - destruct (KnowledgeSearch.observer_current v) as [i|]; [|exact I].
    now apply quiet_update_at.
Qed.

Lemma sentinel_is_rearmed_when_the_load_ends_witness :
  KnowledgeSearch.parent
    (KnowledgeSearch.step (KnowledgeSearch.Intersect 9 true)
       (KnowledgeSearch.step
          (KnowledgeSearch.Render (search_props false) (Some 9))
          (KnowledgeSearch.run load_more_started
             (KnowledgeSearch.mount 10%Z (search_props false) (Some 7)))))
  = 30%Z.
Proof.
  apply (sentinel_is_rearmed_when_the_load_ends
           Z (fun topK => topK) 10%Z (search_props false) (Some 7)
           load_more_started (search_props false) setTopK 9
           eq_refl eq_refl eq_refl).
  intros u p. reflexivity.
Defined.

(** * Properties of the sidebar's filter state *)

Section SidebarFacts.

Import Sidebar.

Lemma get_set_same (k : FilterKey) (l : list string) (fs : Filters) :
  get k (set k l fs) = Some l.
Proof. now destruct k. Qed.

Lemma get_set_other (k k' : FilterKey) (l : list string) (fs : Filters) :
  k' <> k -> get k' (set k l fs) = get k' fs.
Proof. destruct k, k'; intro H; try reflexivity; now contradiction H. Qed.

Lemma values_set_same (k : FilterKey) (l : list string) (fs : Filters) :
  values k (set k l fs) = l.
Proof. unfold values. now rewrite get_set_same. Qed.

Lemma includes_In (l : list string) (x : string) :
  includes l x = true <-> In x l.
Proof.
  unfold includes. rewrite existsb_exists. split.
  - intros (y & Hin & E). apply String.eqb_eq in E. now subst.
  - intro H. exists x. split; [exact H | apply String.eqb_refl].
Qed.

Lemma In_without (value x : string) (l : list string) :
  In x (without value l) <-> In x l /\ x <> value.
Proof.
  unfold without. rewrite filter_In, negb_true_iff, String.eqb_neq. tauto.
Qed.

Lemma without_absent (value : string) (l : list string) :
  ~ In value l -> without value l = l.
Proof.
  intro H. unfold without. induction l as [|a l IH]; [reflexivity|].
  cbn. destruct (String.eqb a value) eqn:E.
  - apply String.eqb_eq in E. subst. contradiction H. now left.
  - cbn. f_equal. apply IH. intro Hin. apply H. now right.
Qed.

Lemma without_app (value : string) (l1 l2 : list string) :
  without value (l1 ++ l2) = without value l1 ++ without value l2.
Proof. apply filter_app. Qed.

Lemma without_NoDup (value : string) (l : list string) :
  NoDup l -> NoDup (without value l).
Proof. intro H. now apply NoDup_filter. Qed.

Lemma without_length_NoDup (value : string) (l : list string) :
  NoDup l -> In value l -> S (List.length (without value l)) = List.length l.
Proof.
  induction 1 as [|a l Hna Hnd IH]; intro Hin; [contradiction|].
  unfold without. cbn [filter]. fold (without value l).
  destruct (String.eqb a value) eqn:E.
  - apply String.eqb_eq in E. subst a. cbn.
    now rewrite (without_absent value l Hna).
  - cbn. f_equal. apply IH. destruct Hin as [->|Hin]; [|exact Hin].
    now rewrite String.eqb_refl in E.
Qed.

Lemma total_count_sum (fs : Filters) :
  getTotalActiveFilterCount fs
  = getActiveFilterCount key_department fs
    + getActiveFilterCount key_moduleId fs
    + getActiveFilterCount key_appSpecificRecordType fs
    + getActiveFilterCount key_connector fs.
Proof. reflexivity. Qed.

Lemma count_set (k k' : FilterKey) (l : list string) (fs : Filters) :
  getActiveFilterCount k' (set k l fs)
  = if key_eqb k' k then List.length l else getActiveFilterCount k' fs.
Proof. destruct k, k'; reflexivity. Qed.

(** X23: ticking or unticking a filter flips whether the value is selected
    under that key, leaves every other value of the key selected or not as it
    was, and does not touch the other keys. *)
Theorem filter_toggle_flips_membership
    (k : FilterKey) (value : string) (filters : Filters) :
  let filters' := handleFilterChange k value filters in
  includes (values k filters') value = negb (includes (values k filters) value) /\
  (forall x, x <> value -> (In x (values k filters') <-> In x (values k filters))) /\
  (forall k', k' <> k -> get k' filters' = get k' filters).
Proof.
  cbv zeta. unfold handleFilterChange. cbv zeta. rewrite values_set_same.
  split; [|split].
  - destruct (includes (values k filters) value) eqn:E; cbn.
    + apply not_true_iff_false. rewrite includes_In, In_without. tauto.
    + apply includes_In, in_or_app. right. now left.
  - intros x Hx. destruct (includes (values k filters) value).
    + rewrite In_without. tauto.
    + rewrite in_app_iff. cbn. intuition congruence.
  - intros k' Hk. now apply get_set_other.
Qed.

Lemma filter_toggle_flips_membership_witness :
  Sidebar.values key_connector
    (handleFilterChange key_connector "DRIVE" filters_without_connector)
  = ["DRIVE"] /\
  get key_department
    (handleFilterChange key_connector "DRIVE" filters_without_connector)
  = Some ["engineering"].
Proof.
  split; [reflexivity|].
  apply (proj2 (proj2 (filter_toggle_flips_membership
                         key_connector "DRIVE" filters_without_connector))).
  discriminate.
Defined.

(** X24: ticking a value that was not selected and unticking it again gives
    back the same list for that key (the empty list if the key was missing);
    in general two toggles of the same value leave the same values selected,
    and unticking a box does exactly what deleting its chip does. *)
Theorem filter_toggle_twice_restores
    (k : FilterKey) (value : string) (filters : Filters) :
  let twice := handleFilterChange k value (handleFilterChange k value filters) in
  (~ In value (values k filters) -> values k twice = values k filters) /\
  (forall x, In x (values k twice) <-> In x (values k filters)) /\
  (In value (values k filters) ->
   handleFilterChange k value filters = clearFilter k value filters).
Proof.
  cbv zeta. unfold handleFilterChange at 1 2. cbv zeta.
  rewrite !values_set_same.
  destruct (includes (values k filters) value) eqn:E.
  - assert (Hin : In value (values k filters)) by now apply includes_In.
    assert (Hout : includes (without value (values k filters)) value = false).
    { apply not_true_iff_false. rewrite includes_In, In_without. tauto. }
    unfold handleFilterChange. cbv zeta. rewrite E.
    rewrite !values_set_same, Hout.
    split; [intro H; contradiction (H Hin)|]. split; [|reflexivity].
    intro x. rewrite in_app_iff, In_without. cbn.
    destruct (String.eqb x value) eqn:X.
    + apply String.eqb_eq in X. subst. tauto.
    + apply String.eqb_neq in X. intuition congruence.
  - assert (Hnot : ~ In value (values k filters)).
    { rewrite <- includes_In, E. discriminate. }
    assert (Hincl : includes (values k filters ++ [value]) value = true).
    { apply includes_In, in_or_app. right. now left. }
    unfold handleFilterChange. cbv zeta. rewrite E.
    rewrite !values_set_same, Hincl.
    rewrite without_app, (without_absent value _ Hnot). cbn.
    rewrite String.eqb_refl. cbn. rewrite app_nil_r.
    split; [reflexivity|]. split; [reflexivity|].
    intro H. contradiction (Hnot H).
Qed.

Lemma filter_toggle_twice_restores_witness :
  Sidebar.values key_department
    (handleFilterChange key_department "design"
       (handleFilterChange key_department "design" filters_without_connector))
  = ["engineering"].
Proof.
  apply (proj1 (filter_toggle_twice_restores
                  key_department "design" filters_without_connector)).
  cbn. intuition discriminate.
Defined.

Lemma apply_NoDup (a : action) (fs : Filters) :
  (forall k, NoDup (values k fs)) -> forall k, NoDup (values k (apply a fs)).
Proof.
  intros H k'. destruct a as [k value | k value |]; cbn.
  - unfold handleFilterChange. cbv zeta.
    destruct (key_eqb k' k) eqn:K.
    + assert (k' = k) by (destruct k, k'; cbn in K; congruence). subst k'.
      rewrite values_set_same.
      destruct (includes (values k fs) value) eqn:E.
      * apply without_NoDup, H.
      * apply NoDup_app; [apply H | constructor; [intros [] | constructor] |].
        intros x Hx [<-|[]]. apply includes_In in Hx. congruence.
    + unfold values. rewrite get_set_other; [apply H|].
      intro; subst. destruct k; discriminate K.
  - unfold clearFilter. destruct (key_eqb k' k) eqn:K.
    + assert (k' = k) by (destruct k, k'; cbn in K; congruence). subst k'.
      rewrite values_set_same. apply without_NoDup, H.
    + unfold values. rewrite get_set_other; [apply H|].
      intro; subst. destruct k; discriminate K.
  - destruct k'; constructor.
Qed.

Lemma apply_all_NoDup (actions : list action) :
  forall fs, (forall k, NoDup (values k fs)) ->
             forall k, NoDup (values k (apply_all actions fs)).
Proof.
  induction actions as [|a actions IH]; intros fs H; [exact H|].
  cbn. apply IH. now apply apply_NoDup.
Qed.

(** X25: starting from cleared filters, whatever boxes are ticked or unticked
    and whatever chips are deleted, no value is ever selected twice under a
    key; in such a state a toggle changes the total shown in "Active Filters"
    by exactly one, up when the value was not selected and down when it
    was. *)
Theorem filters_never_hold_duplicates
    (actions : list action) (k : FilterKey) (value : string) :
  let filters := apply_all actions clearAllFilters in
  (forall k', NoDup (values k' filters)) /\
  getTotalActiveFilterCount (handleFilterChange k value filters)
  = if includes (values k filters) value
    then getTotalActiveFilterCount filters - 1
    else getTotalActiveFilterCount filters + 1.
Proof.
  cbv zeta.
  assert (Hnd : forall k', NoDup (values k' (apply_all actions clearAllFilters))).
  { apply apply_all_NoDup. intros []; constructor. }
  split; [exact Hnd|].
  set (fs := apply_all actions clearAllFilters) in *.
  rewrite !total_count_sum. unfold handleFilterChange. cbv zeta.
  rewrite !count_set.
  destruct (includes (values k fs) value) eqn:E.
  - apply includes_In in E.
    pose proof (without_length_NoDup value (values k fs) (Hnd k) E) as L.
    unfold getActiveFilterCount. destruct k; cbn [key_eqb]; lia.
  - rewrite length_app. cbn [List.length].
    unfold getActiveFilterCount. destruct k; cbn [key_eqb]; lia.
Qed.

(** X26: deleting a chip removes the value from its key and nothing else; it
    is idempotent, and [hasActiveFilters] holds exactly when some key has a
    selected value, so never after "Clear All". *)
Theorem chip_deletion_removes_the_value
    (k : FilterKey) (value : string) (filters : Filters) :
  let filters' := clearFilter k value filters in
  (forall x, In x (values k filters') <-> In x (values k filters) /\ x <> value) /\
  (forall k', k' <> k -> get k' filters' = get k' filters) /\
  clearFilter k value filters' = filters' /\
  (hasActiveFilters filters = true <-> exists k' x, In x (values k' filters)) /\
  hasActiveFilters clearAllFilters = false.
Proof.
  cbv zeta. unfold clearFilter. rewrite !values_set_same.
  split; [intro x; apply In_without|].
  split; [intros k' Hk; now apply get_set_other|].
  split.
  { rewrite (without_absent value (without value (values k filters))).
    - now destruct k.
    - rewrite In_without. tauto. }
  split; [|reflexivity].
  unfold hasActiveFilters. rewrite Nat.ltb_lt, total_count_sum.
  unfold getActiveFilterCount. split.
  - intro H.
    assert (N : exists k', values k' filters <> []).
    { destruct (values key_department filters) eqn:A;
        [|exists key_department; rewrite A; discriminate].
      destruct (values key_moduleId filters) eqn:B;
        [|exists key_moduleId; rewrite B; discriminate].
      destruct (values key_appSpecificRecordType filters) eqn:C;
        [|exists key_appSpecificRecordType; rewrite C; discriminate].
      destruct (values key_connector filters) eqn:D;
        [|exists key_connector; rewrite D; discriminate].
      cbn in H. lia. }
    destruct N as (k' & N). exists k'.
    destruct (values k' filters) as [|x l]; [now contradiction N|].
    exists x. now left.
  - intros (k' & x & Hin).
    assert (0 < List.length (values k' filters)).
    { destruct (values k' filters); [contradiction | cbn; lia]. }
    destruct k'; lia.
Qed.

Lemma chip_deletion_removes_the_value_witness :
  get key_department
    (clearFilter key_connector "DRIVE" filters_without_connector)
  = Some ["engineering"].
Proof.
  apply (proj1 (proj2 (chip_deletion_removes_the_value
                         key_connector "DRIVE" filters_without_connector))).
  discriminate.
Defined.

End SidebarFacts.
